(** * MP3TagEditor: the ID3v2 tag codec, embedded and verified

    A shallow embedding of the C sources [error_handling.c], [id3_utils.c],
    [id3_reader.c], [id3_writer.c] and [main.c].  The stdio calls of the
    program are operations of a small state monad over a [World] holding
    the file system, the standard error stream and the log of the file
    calls made; the C functions are written in that monad, statement by
    statement.  The functions that print on standard output run in a
    [Process], a world together with the lines printed.

    What the embedding takes for granted: [int] has 32 bits and wraps
    around, [size_t] has 64; [malloc] and [strdup] succeed unless the size
    asked for is half the address space or more; [fwrite] and [fclose] do
    not fail; two different names are two different files. *)

From Stdlib Require Import ZArith Ascii String List Lia Bool.
From stdpp Require Import gmap strings list fin_maps.

Local Open Scope string_scope.
Local Open Scope list_scope.

(** ** Bytes, integers and C strings *)

(** An [unsigned char] is an [ascii]; its numeric value is [byte_val]. *)
Definition NUL : ascii := Ascii.zero.

Definition byte_val (c : ascii) : Z := Z.of_N (N_of_ascii c).

(** Conversion of an integer to [unsigned char] keeps the low eight bits. *)
Definition byte_of (z : Z) : ascii := ascii_of_N (Z.to_N (z mod 256)).

(** A string literal of the source as the bytes it denotes. *)
Definition lit (s : string) : list ascii := list_ascii_of_string s.

(** [int] is 32 bits wide, two's complement. *)
Definition INT_MAX : Z := 2147483647.

Definition int_wrap (z : Z) : Z := (z + 2 ^ 31) mod 2 ^ 32 - 2 ^ 31.

(** Conversion of an [int] to [size_t] (64 bits, unsigned). *)
Definition size_t_of_int (z : Z) : Z := z mod 2 ^ 64.

(** The C string a buffer holds is what precedes its first NUL byte; every
    buffer the program passes to [strdup], [strlen] or [strcmp] is followed
    by a terminator, so the end of the list also ends the string. *)
Fixpoint strdup (buf : list ascii) : list ascii :=
  match buf with
  | [] => []
  | c :: rest => if Ascii.eqb c NUL then [] else c :: strdup rest
  end.

Definition strlen (buf : list ascii) : Z := Z.of_nat (length (strdup buf)).

(** [strcmp a b] is the test [strcmp(a, b) == 0] of the source. *)
Definition strcmp (a b : list ascii) : bool :=
  bool_decide (strdup a = strdup b).

(** [header[i]] and friends: reading a byte of a local array. *)
Definition at_index (buf : list ascii) (i : nat) : ascii := nth i buf NUL.

(** [%d] of a value below 1000 (the arguments are [unsigned char]s). *)
Definition digit (n : Z) : ascii := byte_of (48 + n).

Definition fmt_d (n : Z) : list ascii :=
  if (n <? 10)%Z then [digit n]
  else if (n <? 100)%Z then [digit (n / 10); digit (n mod 10)]
  else [digit (n / 100); digit ((n / 10) mod 10); digit (n mod 10)].

(** ** id3_utils: the tag record *)

Record TagData := mkTagData {
  version : option (list ascii);
  title : option (list ascii);
  artist : option (list ascii);
  album : option (list ascii);
  year : option (list ascii);
  comment : option (list ascii);
  genre : option (list ascii)
}.

(** [create_tag_data]: every pointer is NULL.  Allocation is taken to
    succeed. *)
Definition create_tag_data : TagData :=
  mkTagData None None None None None None None.

Definition set_version (v : list ascii) (d : TagData) : TagData :=
  mkTagData (Some v) (title d) (artist d) (album d) (year d) (comment d) (genre d).
Definition set_title (v : list ascii) (d : TagData) : TagData :=
  mkTagData (version d) (Some v) (artist d) (album d) (year d) (comment d) (genre d).
Definition set_artist (v : list ascii) (d : TagData) : TagData :=
  mkTagData (version d) (title d) (Some v) (album d) (year d) (comment d) (genre d).
Definition set_album (v : list ascii) (d : TagData) : TagData :=
  mkTagData (version d) (title d) (artist d) (Some v) (year d) (comment d) (genre d).
Definition set_year (v : list ascii) (d : TagData) : TagData :=
  mkTagData (version d) (title d) (artist d) (album d) (Some v) (comment d) (genre d).
Definition set_comment (v : list ascii) (d : TagData) : TagData :=
  mkTagData (version d) (title d) (artist d) (album d) (year d) (Some v) (genre d).
Definition set_genre (v : list ascii) (d : TagData) : TagData :=
  mkTagData (version d) (title d) (artist d) (album d) (year d) (comment d) (Some v).

(** ** The world: files, standard error, and the file calls made *)

Inductive Mode := RB | WBplus.

Inductive IoCall :=
| Fopen (path : string) (mode : Mode)
| Fread (path : string) (count : Z)
| Fwrite (path : string) (data : list ascii)
| Fseek (path : string) (offset : Z)
| Fclose (path : string)
| Remove (path : string)
| Rename (src dst : string).

(** [files] maps a name to the bytes of the file of that name.  The three
    [deny_] fields say which calls the operating system refuses whatever
    the files are (permissions and the like).  [stderr] holds the lines
    printed so far and [io] the file calls made so far, oldest first. *)
Record World := mkWorld {
  files : gmap string (list ascii);
  deny_open : string -> Mode -> bool;
  deny_remove : string -> bool;
  deny_rename : string -> string -> bool;
  stderr : list string;
  io : list IoCall
}.

Definition set_files (fs : gmap string (list ascii)) (w : World) : World :=
  mkWorld fs (deny_open w) (deny_remove w) (deny_rename w) (stderr w) (io w).

Definition add_err (line : string) (w : World) : World :=
  mkWorld (files w) (deny_open w) (deny_remove w) (deny_rename w)
          (stderr w ++ [line]) (io w).

Definition add_io (cs : list IoCall) (w : World) : World :=
  mkWorld (files w) (deny_open w) (deny_remove w) (deny_rename w)
          (stderr w) (io w ++ cs).

(** The monad of the program's statements. *)
Definition IO (A : Type) : Type := World -> A * World.

Definition ret {A} (a : A) : IO A := fun w => (a, w).

Definition bind {A B} (m : IO A) (k : A -> IO B) : IO B :=
  fun w => let (a, w') := m w in k a w'.

Declare Scope io_scope.
Delimit Scope io_scope with io.
Notation "x <- c ;; k" := (bind c (fun x => k))
  (at level 20, c at level 99, k at level 200, only parsing) : io_scope.
Notation "' pat <- c ;; k" := (bind c (fun x => match x with pat => k end))
  (at level 20, pat pattern, c at level 99, k at level 200, only parsing) : io_scope.
Notation "c ;; k" := (bind c (fun _ => k))
  (at level 100, k at level 200, right associativity, only parsing) : io_scope.
Local Open Scope io_scope.

(** *** stdio *)

(** A [FILE*]: the file it was opened on and the stream position. *)
Record FILE := mkFILE { f_path : string; f_pos : nat }.

Definition contents (w : World) (fp : FILE) : list ascii :=
  default [] (files w !! f_path fp).

(** [fopen]: mode "rb" needs the file to exist; mode "wb+" creates the file
    or truncates it to length zero. *)
Definition fopen (path : string) (mode : Mode) : IO (option FILE) := fun w =>
  let w1 := add_io [Fopen path mode] w in
  if deny_open w path mode then (None, w1)
  else match mode with
       | RB => match files w !! path with
               | Some _ => (Some (mkFILE path 0), w1)
               | None => (None, w1)
               end
       | WBplus => (Some (mkFILE path 0), set_files (<[path := []]> (files w)) w1)
       end.

(** [fread(buf, 1, n, fp)]: the bytes obtained (at most [n], fewer at the end
    of the file) and the advanced stream. *)
Definition fread (n : Z) (fp : FILE) : IO (list ascii * FILE) := fun w =>
  let avail := drop (f_pos fp) (contents w fp) in
  let got := take (Z.to_nat (Z.min n (Z.of_nat (length avail)))) avail in
  ((got, mkFILE (f_path fp) (f_pos fp + length got)),
   add_io [Fread (f_path fp) n] w).

(** [fwrite(data, 1, |data|, fp)]: the bytes go to the stream position. *)
Definition fwrite (data : list ascii) (fp : FILE) : IO FILE := fun w =>
  let old := contents w fp in
  let new := resize (f_pos fp) NUL old ++ data
             ++ drop (f_pos fp + length data) old in
  (mkFILE (f_path fp) (f_pos fp + length data),
   set_files (<[f_path fp := new]> (files w)) (add_io [Fwrite (f_path fp) data] w)).

(** [fseek(fp, off, SEEK_SET)]; seeking past the end is allowed. *)
Definition fseek (off : Z) (fp : FILE) : IO FILE := fun w =>
  (mkFILE (f_path fp) (Z.to_nat off), add_io [Fseek (f_path fp) off] w).

Definition ftell (fp : FILE) : Z := Z.of_nat (f_pos fp).

Definition fclose (fp : FILE) : IO unit := fun w =>
  (tt, add_io [Fclose (f_path fp)] w).

Definition remove (path : string) : IO Z := fun w =>
  let w1 := add_io [Remove path] w in
  if deny_remove w path then ((-1)%Z, w1)
  else match files w !! path with
       | Some _ => (0%Z, set_files (delete path (files w)) w1)
       | None => ((-1)%Z, w1)
       end.

Definition rename (src dst : string) : IO Z := fun w =>
  let w1 := add_io [Rename src dst] w in
  if deny_rename w src dst then ((-1)%Z, w1)
  else match files w !! src with
       | Some c => (0%Z, set_files (<[dst := c]> (delete src (files w))) w1)
       | None => ((-1)%Z, w1)
       end.

(** The length of the file under a stream: the bound of the loops below,
    each round of which consumes at least one byte.  Not a call of the
    source, and not logged. *)
Definition file_length (fp : FILE) : IO nat := fun w =>
  (length (contents w fp), w).

(** ** error_handling.c *)

(** [fprintf(stderr, "Error: %s\n", message)]: one line on standard error. *)
Definition display_error (message : string) : IO unit := fun w =>
  (tt, add_err ("Error: " ++ message) w).

(** [strrchr(s, c)] for [c] other than NUL: the suffix of [s] starting at
    the last occurrence of [c]. *)
Fixpoint strrchr (s : string) (c : ascii) : option string :=
  match s with
  | EmptyString => None
  | String a s' =>
      match strrchr s' c with
      | Some ext => Some ext
      | None => if Ascii.eqb a c then Some s else None
      end
  end.

Definition check_id3_tag_presence (filename : string) : bool :=
  match strrchr filename "." with
  | Some ext => String.eqb ext ".mp3"
  | None => false
  end.

(** ** id3_reader.c *)

(** [malloc(size)]: a request of half the address space or more fails (a
    negative [int] converted to [size_t] is such a request); any other
    request is taken to succeed. *)
Definition malloc (size : Z) : bool := (size <? 2 ^ 63)%Z.

(** [memcmp(a, b, n) == 0]. *)
Definition memcmp (a b : list ascii) (n : nat) : bool :=
  bool_decide (take n a = take n b).

(** [snprintf(buf, size, ...)] keeps at most [size - 1] characters of the
    formatted text. *)
Definition snprintf (size : nat) (text : list ascii) : list ascii :=
  take (size - 1) text.

(** The sync-safe size in bytes 6 to 9 of the header. *)
Definition tag_size (header : list ascii) : Z :=
  Z.lor (Z.lor (Z.lor
    (Z.shiftl (Z.land (byte_val (at_index header 6)) 127) 21)
    (Z.shiftl (Z.land (byte_val (at_index header 7)) 127) 14))
    (Z.shiftl (Z.land (byte_val (at_index header 8)) 127) 7))
    (Z.land (byte_val (at_index header 9)) 127).

(** The big-endian [int] in the four size bytes of a frame header; a first
    byte of 128 or more makes it negative. *)
Definition frame_size (sizeBytes : list ascii) : Z :=
  int_wrap (Z.lor (Z.lor (Z.lor
    (Z.shiftl (byte_val (at_index sizeBytes 0)) 24)
    (Z.shiftl (byte_val (at_index sizeBytes 1)) 16))
    (Z.shiftl (byte_val (at_index sizeBytes 2)) 8))
    (byte_val (at_index sizeBytes 3))).

(** The chain of [strcmp]s that assigns a frame's content to its field. *)
Definition store_frame (frameId content : list ascii) (data : TagData) : TagData :=
  if strcmp frameId (lit "TIT2") then set_title (strdup content) data
  else if strcmp frameId (lit "TPE1") then set_artist (strdup content) data
  else if strcmp frameId (lit "TALB") then set_album (strdup content) data
  else if strcmp frameId (lit "TYER") then set_year (strdup content) data
  else if strcmp frameId (lit "COMM") then set_comment (strdup content) data
  else if strcmp frameId (lit "TCON") then set_genre (strdup content) data
  else data.

(** The [while (ftell(fp) < tagEnd)] loop; a [break] returns.  [fuel] bounds
    the number of rounds. *)
Fixpoint read_frames (fuel : nat) (tagEnd : Z) (fp : FILE) (data : TagData)
  : IO (FILE * TagData) :=
  match fuel with
  | O => ret (fp, data)
  | S fuel' =>
    if (ftell fp <? tagEnd)%Z then
      '(frameId, fp) <- fread 4 fp ;;
      if negb (length frameId =? 4)%nat then ret (fp, data) else
      '(sizeBytes, fp) <- fread 4 fp ;;
      if negb (length sizeBytes =? 4)%nat then ret (fp, data) else
      '(flags, fp) <- fread 2 fp ;;
      if negb (length flags =? 2)%nat then ret (fp, data) else
      if Ascii.eqb (at_index frameId 0) NUL then ret (fp, data) else
      let frameSize := frame_size sizeBytes in
      if negb (malloc (size_t_of_int (int_wrap (frameSize + 1)))) then
        ret (fp, data)
      else
      '(content, fp) <- fread (size_t_of_int frameSize) fp ;;
      if negb (Z.of_nat (length content) =? size_t_of_int frameSize)%Z then
        ret (fp, data)
      else
      read_frames fuel' tagEnd fp (store_frame frameId content data)
    else ret (fp, data)
  end.

Definition read_id3_tags (filename : string) : IO (option TagData) :=
  if negb (check_id3_tag_presence filename) then
    display_error "File does not appear to be an MP3 file." ;;
    ret None
  else
    fp <- fopen filename RB ;;
    match fp with
    | None =>
        display_error "Cannot open file for reading." ;;
        ret None
    | Some fp =>
        '(header, fp) <- fread 10 fp ;;
        if negb (length header =? 10)%nat then
          display_error "Failed to read ID3 header." ;;
          fclose fp ;;
          ret None
        else if negb (memcmp header (lit "ID3") 3) then
          display_error "No ID3 tag found." ;;
          fclose fp ;;
          ret None
        else
          let tagSize := tag_size header in
          let data := create_tag_data in
          let verStr :=
            snprintf 10 (lit "ID3v2." ++ fmt_d (byte_val (at_index header 3))
                         ++ lit "." ++ fmt_d (byte_val (at_index header 4))) in
          let data := set_version (strdup verStr) data in
          let tagEnd := (ftell fp + tagSize)%Z in
          fuel <- file_length fp ;;
          '(fp, data) <- read_frames (S fuel) tagEnd fp data ;;
          fclose fp ;;
          ret (Some data)
    end.

(** ** id3_writer.c *)

Definition write_frame (fp : FILE) (frame_id : list ascii)
    (content : option (list ascii)) : IO FILE :=
  match content with
  | None => ret fp
  | Some content =>
      let content_size := int_wrap (strlen content) in
      let size_bytes :=
        [ byte_of (Z.land (Z.shiftr content_size 24) 255);
          byte_of (Z.land (Z.shiftr content_size 16) 255);
          byte_of (Z.land (Z.shiftr content_size 8) 255);
          byte_of (Z.land content_size 255) ] in
      fp <- fwrite (take 4 frame_id) fp ;;
      fp <- fwrite size_bytes fp ;;
      let flags := [NUL; NUL] in
      fp <- fwrite flags fp ;;
      fwrite (take (Z.to_nat (size_t_of_int content_size)) content) fp
  end.

(** The copy loop [while ((bytes = fread(buffer, 1, 1024, fp_orig)) > 0)]. *)
Fixpoint copy_rest (fuel : nat) (fp_orig fp_temp : FILE) : IO (FILE * FILE) :=
  match fuel with
  | O => ret (fp_orig, fp_temp)
  | S fuel' =>
      '(buffer, fp_orig) <- fread 1024 fp_orig ;;
      if (0 <? length buffer)%nat then
        fp_temp <- fwrite buffer fp_temp ;;
        copy_rest fuel' fp_orig fp_temp
      else ret (fp_orig, fp_temp)
  end.

Definition temp_name : string := "temp.mp3".

Definition write_id3_tags (filename : string) (data : TagData) : IO Z :=
  if negb (check_id3_tag_presence filename) then
    display_error "File does not appear to be an MP3 file." ;;
    ret (-1)%Z
  else
    fp_orig <- fopen filename RB ;;
    match fp_orig with
    | None =>
        display_error "Cannot open original file for reading." ;;
        ret (-1)%Z
    | Some fp_orig =>
        fp_temp <- fopen temp_name WBplus ;;
        match fp_temp with
        | None =>
            fclose fp_orig ;;
            display_error "Cannot open temporary file for writing." ;;
            ret (-1)%Z
        | Some fp_temp =>
            '(header, fp_orig) <- fread 10 fp_orig ;;
            if negb (length header =? 10)%nat then
              fclose fp_orig ;;
              fclose fp_temp ;;
              display_error "Failed to read ID3 header." ;;
              ret (-1)%Z
            else
              fp_temp <- fwrite header fp_temp ;;
              fp_temp <- write_frame fp_temp (lit "TIT2") (title data) ;;
              fp_temp <- write_frame fp_temp (lit "TPE1") (artist data) ;;
              fp_temp <- write_frame fp_temp (lit "TALB") (album data) ;;
              fp_temp <- write_frame fp_temp (lit "TYER") (year data) ;;
              fp_temp <- write_frame fp_temp (lit "COMM") (comment data) ;;
              fp_temp <- write_frame fp_temp (lit "TCON") (genre data) ;;
              fp_orig <- fseek 300 fp_orig ;;
              fuel <- file_length fp_orig ;;
              '(fp_orig, fp_temp) <- copy_rest (S fuel) fp_orig fp_temp ;;
              fclose fp_orig ;;
              fclose fp_temp ;;
              r <- remove filename ;;
              if negb (r =? 0)%Z then
                display_error "Failed to remove original file." ;;
                ret (-1)%Z
              else
                r <- rename temp_name filename ;;
                if negb (r =? 0)%Z then
                  display_error "Failed to rename temporary file." ;;
                  ret (-1)%Z
                else ret 0%Z
        end
    end.

(** [edit_tag]; [tag] and [value] are command-line arguments, proper C
    strings, so [strcmp] on them is equality and [strdup] the identity. *)
Definition edit_tag (filename tag value : string) : IO Z :=
  data <- read_id3_tags filename ;;
  match data with
  | None =>
      display_error "Failed to read tags for editing." ;;
      ret (-1)%Z
  | Some data =>
      let update (set : list ascii -> TagData -> TagData) : IO Z :=
        write_id3_tags filename (set (lit value) data) in
      if String.eqb tag "title" then update set_title
      else if String.eqb tag "artist" then update set_artist
      else if String.eqb tag "album" then update set_album
      else if String.eqb tag "year" then update set_year
      else if String.eqb tag "comment" then update set_comment
      else if String.eqb tag "genre" then update set_genre
      else
        display_error "Unknown tag." ;;
        ret (-1)%Z
  end.

(** ** The frame layout and the field table, for stating properties *)

(** The six text fields and the frame identifier of each, as the chains of
    [strcmp]s in [read_id3_tags] and the calls of [write_frame] in
    [write_id3_tags] pair them. *)
Inductive Field := Title | Artist | Album | Year | Comment | Genre.

Definition field_id (k : Field) : list ascii :=
  match k with
  | Title => lit "TIT2" | Artist => lit "TPE1" | Album => lit "TALB"
  | Year => lit "TYER" | Comment => lit "COMM" | Genre => lit "TCON"
  end.

Definition get_field (k : Field) (d : TagData) : option (list ascii) :=
  match k with
  | Title => title d | Artist => artist d | Album => album d
  | Year => year d | Comment => comment d | Genre => genre d
  end.

(** The names [edit_tag] accepts. *)
Definition field_names : list string :=
  ["title"; "artist"; "album"; "year"; "comment"; "genre"].

(** Four bytes, most significant first. *)
Definition be32 (n : Z) : list ascii :=
  [byte_of (n / 2 ^ 24); byte_of (n / 2 ^ 16); byte_of (n / 2 ^ 8); byte_of n].

(** A frame as it lies in a file: identifier, size of the body, two flag
    bytes, body. *)
Record Frame := mkFrame {
  frame_id : list ascii;
  frame_flags : list ascii;
  frame_body : list ascii
}.

Definition frame_bytes (f : Frame) : list ascii :=
  frame_id f ++ be32 (Z.of_nat (length (frame_body f)))
    ++ frame_flags f ++ frame_body f.

Definition frames_bytes (fs : list Frame) : list ascii :=
  concat (map frame_bytes fs).

(** A frame the loop of [read_id3_tags] takes as one: the identifier has
    four bytes and does not start with NUL, and the size fits an [int] with
    room for the terminator. *)
Definition wf_frame (f : Frame) : Prop :=
  length (frame_id f) = 4%nat /\ at_index (frame_id f) 0 <> NUL /\
  length (frame_flags f) = 2%nat /\
  (Z.of_nat (length (frame_body f)) < INT_MAX)%Z.

(** Every frame of [fs], laid out from offset [pos] on, is well formed and
    starts before [tagEnd]. *)
Fixpoint frames_fit (tagEnd pos : Z) (fs : list Frame) : Prop :=
  match fs with
  | [] => True
  | f :: fs' =>
      wf_frame f /\ (pos < tagEnd)%Z /\
      frames_fit tagEnd (pos + Z.of_nat (length (frame_bytes f))) fs'
  end.

(** The loop stops at offset [pos], where [tail] is what is left of the
    file: the tag is exhausted, or no frame header is left, or padding
    starts, or the size in the frame header found there cannot be
    allocated or exceeds what is left of the file. *)
Definition stops (tagEnd pos : Z) (tail : list ascii) : Prop :=
  (tagEnd <= pos)%Z \/ (length tail < 10)%nat \/ at_index tail 0 = NUL \/
  let n := frame_size (take 4 (drop 4 tail)) in
  malloc (size_t_of_int (int_wrap (n + 1))) = false \/
  (Z.of_nat (length (drop 10 tail)) < size_t_of_int n)%Z.

(** The loop takes a frame at offset [pos] of the file [c]: identifier
    [id], content [body]. *)
Definition takes_frame (tagEnd : Z) (pos : nat) (c id body : list ascii) : Prop :=
  let t := drop pos c in
  let n := frame_size (take 4 (drop 4 t)) in
  (Z.of_nat pos < tagEnd)%Z /\ (10 <= length t)%nat /\ at_index t 0 <> NUL /\
  id = take 4 t /\
  malloc (size_t_of_int (int_wrap (n + 1))) = true /\
  body = take (Z.to_nat (size_t_of_int n)) (drop 10 t) /\
  Z.of_nat (length body) = size_t_of_int n.

(** What the loop does with a sequence of frames. *)
Definition store_frames (fs : list Frame) (data : TagData) : TagData :=
  fold_left (fun d f => store_frame (frame_id f) (frame_body f) d) fs data.

(** The record [read_id3_tags] starts the loop with. *)
Definition initial_tag (header : list ascii) : TagData :=
  set_version
    (strdup (snprintf 10 (lit "ID3v2." ++ fmt_d (byte_val (at_index header 3))
                          ++ lit "." ++ fmt_d (byte_val (at_index header 4)))))
    create_tag_data.

(** The frame of a field as the specification words it: the identifier,
    the byte count of the value in four bytes, most significant first, two
    zero flag bytes, the value; nothing for an absent field. *)
Definition emitted (id : list ascii) (content : option (list ascii)) : list ascii :=
  match content with
  | None => []
  | Some v => frame_bytes (mkFrame id [NUL; NUL] v)
  end.

Definition emitted_frames (d : TagData) : list ascii :=
  emitted (lit "TIT2") (title d) ++ emitted (lit "TPE1") (artist d)
  ++ emitted (lit "TALB") (album d) ++ emitted (lit "TYER") (year d)
  ++ emitted (lit "COMM") (comment d) ++ emitted (lit "TCON") (genre d).

(** A record the program can hold: each field present is a C string (no NUL
    inside) whose length fits an [int]. *)
Definition c_string (v : list ascii) : Prop :=
  (NUL ∉ v) /\ (Z.of_nat (length v) <= INT_MAX)%Z.

Definition wf_tag (d : TagData) : Prop :=
  forall k v, get_field k d = Some v -> c_string v.

(** Calls that only read. *)
Definition is_read_call (c : IoCall) : Prop :=
  match c with
  | Fopen _ RB | Fread _ _ | Fclose _ => True
  | _ => False
  end.

(** ** Vocabulary of the proofs *)

(** A run that only reads: the files and the refusals of the system are as
    before, lines may have gone to standard error, and the calls made are
    reading calls. *)
Definition reads_only (w w' : World) : Prop :=
  files w' = files w /\ deny_open w' = deny_open w /\
  deny_remove w' = deny_remove w /\ deny_rename w' = deny_rename w /\
  (exists es, stderr w' = stderr w ++ es) /\
  (exists cs, io w' = io w ++ cs /\ Forall is_read_call cs).

(** When [read_id3_tags] returns NULL. *)
Definition unreadable (path : string) (w : World) : Prop :=
  check_id3_tag_presence path = false \/ deny_open w path RB = true \/
  match files w !! path with
  | None => True
  | Some c => (length c < 10)%nat \/ take 3 c <> lit "ID3"
  end.

(** The file at [path] opens for reading and consists of a tag header
    [hdr], the frames [fs], each starting inside the declared size, and a
    [tail] at which the loop stops. *)
Definition holds_tag (path : string) (w : World) (hdr : list ascii)
    (fs : list Frame) (tail : list ascii) : Prop :=
  check_id3_tag_presence path = true /\
  files w !! path = Some (hdr ++ frames_bytes fs ++ tail) /\
  deny_open w path RB = false /\
  length hdr = 10%nat /\ take 3 hdr = lit "ID3" /\
  frames_fit (10 + tag_size hdr) 10 fs /\
  stops (10 + tag_size hdr) (10 + Z.of_nat (length (frames_bytes fs))) tail.

(** A world after some calls: new files [F], calls [cs] more in the log. *)
Definition upd (F : gmap string (list ascii)) (cs : list IoCall) (w : World)
  : World := set_files F (add_io cs w).

(** The bytes the four [fwrite]s of [write_frame] send, whatever the
    content; [written_emitted] compares them with [emitted]. *)
Definition written (id : list ascii) (content : option (list ascii)) : list ascii :=
  match content with
  | None => []
  | Some v =>
      take 4 id ++ be32 (int_wrap (strlen v)) ++ [NUL; NUL]
      ++ take (Z.to_nat (size_t_of_int (int_wrap (strlen v)))) v
  end.

Definition written_frames (d : TagData) : list ascii :=
  written (lit "TIT2") (title d) ++ written (lit "TPE1") (artist d)
  ++ written (lit "TALB") (album d) ++ written (lit "TYER") (year d)
  ++ written (lit "COMM") (comment d) ++ written (lit "TCON") (genre d).

(** What the temporary file holds when both streams are closed. *)
Definition rewritten (orig : list ascii) (data : TagData) : list ascii :=
  take 10 orig ++ written_frames data ++ drop 300 orig.

(** The last statements of [write_id3_tags], from [remove] on. *)
Definition replace_original (filename : string) : IO Z :=
  r <- remove filename ;;
  if negb (r =? 0)%Z then
    display_error "Failed to remove original file." ;;
    ret (-1)%Z
  else
    r <- rename temp_name filename ;;
    if negb (r =? 0)%Z then
      display_error "Failed to rename temporary file." ;;
      ret (-1)%Z
    else ret 0%Z.

(** The bytes the first [fread] of [write_id3_tags] obtains: the first ten
    bytes of the file as it is once the temporary file has been created. *)
Definition header_read (path : string) (w : World) : list ascii :=
  take 10 (default [] (<[temp_name := []]> (files w) !! path)).

(** The offset, from the start of the frames, at which the genre frame is
    written. *)
Definition genre_offset (d : TagData) : Z :=
  Z.of_nat (length (emitted (lit "TIT2") (title d)
                    ++ emitted (lit "TPE1") (artist d)
                    ++ emitted (lit "TALB") (album d)
                    ++ emitted (lit "TYER") (year d)
                    ++ emitted (lit "COMM") (comment d))).

(** The six frames [write_id3_tags] emits for a record with every field
    set. *)
Definition six_frames (v1 v2 v3 v4 v5 v6 : list ascii) : list Frame :=
  [ mkFrame (lit "TIT2") [NUL; NUL] v1; mkFrame (lit "TPE1") [NUL; NUL] v2;
    mkFrame (lit "TALB") [NUL; NUL] v3; mkFrame (lit "TYER") [NUL; NUL] v4;
    mkFrame (lit "COMM") [NUL; NUL] v5; mkFrame (lit "TCON") [NUL; NUL] v6 ].

(** The lines of standard error the properties mention. *)
Definition msg_not_mp3 : string := "Error: File does not appear to be an MP3 file.".
Definition msg_unknown_tag : string := "Error: Unknown tag.".
Definition msg_read_failed : string := "Error: Failed to read tags for editing.".

Definition msg_remove : string := "Error: Failed to remove original file.".
Definition msg_rename : string := "Error: Failed to rename temporary file.".

(** ** Example files *)

(** A world with one file and a system that refuses nothing. *)
Definition one_file (path : string) (c : list ascii) : World :=
  mkWorld (<[path := c]> ∅) (fun _ _ => false) (fun _ => false)
          (fun _ _ => false) [] [].

(** The record [main] builds for the [-w] option. *)
Definition dummy_tags : TagData :=
  mkTagData (Some (lit "ID3v2.3")) (Some (lit "dummy title"))
    (Some (lit "dummy artist")) (Some (lit "dummy album"))
    (Some (lit "dummy year")) (Some (lit "dummy comment"))
    (Some (lit "dummy genre")).

(** The file of the specification's scenario: size 35, one title frame
    holding "Hello", 20 bytes of padding. *)
Definition scenario_header : list ascii :=
  lit "ID3" ++ ["003"; "000"; "000"; "000"; "000"; "000"; "035"]%char.

Definition scenario_file : list ascii :=
  scenario_header
  ++ lit "TIT2" ++ ["000"; "000"; "000"; "005"]%char ++ ["000"; "000"]%char
  ++ lit "Hello" ++ repeat NUL 20.

(** The record the scenario expects, up to the version string. *)
Definition scenario_record (ver : string) : TagData :=
  mkTagData (Some (lit ver)) (Some (lit "Hello")) None None None None None.

(** A tag header that declares size 0, then audio. *)
Definition empty_tag_file : list ascii :=
  lit "ID3" ++ ["003"; "000"; "000"; "000"; "000"; "000"; "000"]%char
  ++ lit "audio data".

(** An unrecognized frame before a title frame; the header declares their
    29 bytes. *)
Definition skip_header : list ascii :=
  lit "ID3" ++ ["003"; "000"; "000"; "000"; "000"; "000"; "029"]%char.

Definition skip_unknown : Frame := mkFrame (lit "XYYZ") [NUL; NUL] (lit "junk").
Definition skip_title : Frame := mkFrame (lit "TIT2") [NUL; NUL] (lit "Hello").

Definition skip_world : World :=
  one_file "song.mp3" (skip_header ++ frames_bytes [skip_unknown; skip_title]).

(** Two title frames with an artist frame between them, 40 bytes in all. *)
Definition twice_header : list ascii :=
  lit "ID3" ++ ["003"; "000"; "000"; "000"; "000"; "000"; "040"]%char.

Definition twice_first : Frame := mkFrame (lit "TIT2") [NUL; NUL] (lit "Old").
Definition twice_artist : Frame := mkFrame (lit "TPE1") [NUL; NUL] (lit "Band").
Definition twice_last : Frame := mkFrame (lit "TIT2") [NUL; NUL] (lit "New").

Definition twice_world : World :=
  one_file "song.mp3"
    (twice_header ++ frames_bytes [twice_first; twice_artist; twice_last]).

(** A title frame whose body goes on after a NUL byte. *)
Definition cut_header : list ascii :=
  lit "ID3" ++ ["003"; "000"; "000"; "000"; "000"; "000"; "016"]%char.

Definition cut_world (after : string) : World :=
  one_file "song.mp3"
    (cut_header
     ++ frames_bytes [mkFrame (field_id Title) [NUL; NUL]
                        (lit "Hi" ++ NUL :: lit after)]).

(** A file without a tag. *)
Definition untagged_file : list ascii := lit "RIFF....WAVEfmt no tag in here".

(** A tag of 127 bytes of padding before five bytes of audio: the six
    frames of [dummy_tags] take 128 bytes, the last starting at offset 107. *)
Definition round_trip_file : list ascii :=
  lit "ID3" ++ ["003"; "000"; "000"; "000"; "000"; "000"; "127"]%char
  ++ repeat NUL 127 ++ lit "audio".

(** ** Standard output: the printing functions and main.c *)

(** A running program: the world, and the lines printed on standard output
    so far, oldest first.  A line is the text of one [printf] without its
    final newline. *)
Record Process := mkProcess { world : World; stdout : list string }.

Definition Prog (A : Type) : Type := Process -> A * Process.

Definition pret {A} (a : A) : Prog A := fun p => (a, p).

Definition pbind {A B} (m : Prog A) (k : A -> Prog B) : Prog B :=
  fun p => let (a, p') := m p in k a p'.

(** A statement that does not print on standard output. *)
Definition lift {A} (m : IO A) : Prog A :=
  fun p => let (a, w) := m (world p) in (a, mkProcess w (stdout p)).

(** [printf] of one line. *)
Definition printf (line : string) : Prog unit :=
  fun p => (tt, mkProcess (world p) (stdout p ++ [line])).

Declare Scope prog_scope.
Delimit Scope prog_scope with prog.
Notation "x <- c ;; k" := (pbind c (fun x => k))
  (at level 20, c at level 99, k at level 200, only parsing) : prog_scope.
Notation "c ;; k" := (pbind c (fun _ => k))
  (at level 100, k at level 200, right associativity, only parsing) : prog_scope.

(** *** id3_reader.c, continued *)

(** The argument of a [%s]: [field ? field : "N/A"]. *)
Definition or_NA (field : option (list ascii)) : string :=
  match field with
  | Some v => string_of_list_ascii (strdup v)
  | None => "N/A"
  end.

(** [display_metadata]; [None] is the NULL pointer. *)
Definition display_metadata (data : option TagData) : Prog unit :=
  match data with
  | None => printf "No tag data available."
  | Some data =>
      (printf ("Version: " ++ or_NA (version data))%string ;;
       printf ("Title:   " ++ or_NA (title data))%string ;;
       printf ("Artist:  " ++ or_NA (artist data))%string ;;
       printf ("Album:   " ++ or_NA (album data))%string ;;
       printf ("Year:    " ++ or_NA (year data))%string ;;
       printf ("Comment: " ++ or_NA (comment data))%string ;;
       printf ("Genre:   " ++ or_NA (genre data))%string)%prog
  end.

Definition view_tags (filename : string) : Prog unit :=
  (data <- lift (read_id3_tags filename) ;;
   match data with
   | Some data => display_metadata (Some data)
   | None => pret tt
   end)%prog.

(** *** main.c *)

Definition display_help : Prog unit :=
  (printf "Usage: mp3tagreader [options] filename" ;;
   printf "Options:" ;;
   printf "  -h               Display help" ;;
   printf "  -v <filename>    View tags in an MP3 file" ;;
   printf "  -w <filename>    Write dummy tags to an MP3 file" ;;
   printf "  -e <tag> <filename> <value>  Edit a specific tag in an MP3 file")%prog.

(** [argv[i]]; [argc] is the length of [argv]. *)
Definition arg (argv : list string) (i : nat) : string := nth i argv "".

(** [main]: the value returned is the exit status.  The arguments are
    proper C strings, so [strcmp] on them is equality; [create_tag_data]
    and the [strdup]s of the dummy values are taken to succeed. *)
Definition main (argv : list string) : Prog Z :=
  let argc := length argv in
  if (argc <? 2)%nat then
    (display_help ;; pret 1%Z)%prog
  else
    ((if String.eqb (arg argv 1) "-h" then
        display_help
      else if String.eqb (arg argv 1) "-v" && (argc =? 3)%nat then
        view_tags (arg argv 2)
      else if String.eqb (arg argv 1) "-w" && (argc =? 3)%nat then
        let data := create_tag_data in
        let data := set_version (strdup (lit "ID3v2.3")) data in
        let data := set_title (strdup (lit "dummy title")) data in
        let data := set_artist (strdup (lit "dummy artist")) data in
        let data := set_album (strdup (lit "dummy album")) data in
        let data := set_year (strdup (lit "dummy year")) data in
        let data := set_comment (strdup (lit "dummy comment")) data in
        let data := set_genre (strdup (lit "dummy genre")) data in
        r <- lift (write_id3_tags (arg argv 2) data) ;;
        if (r =? 0)%Z then printf "Tags written successfully."
        else lift (display_error "Failed to write tags.")
      else if String.eqb (arg argv 1) "-e" && (argc =? 5)%nat then
        r <- lift (edit_tag (arg argv 3) (arg argv 2) (arg argv 4)) ;;
        if (r =? 0)%Z then printf "Tag edited successfully."
        else lift (display_error "Failed to edit tag.")
      else
        display_help) ;;
     pret 0%Z)%prog.

(** ** More vocabulary for stating properties *)

(** The name [edit_tag] knows a field by, and the assignment it makes. *)
Definition field_name (k : Field) : string :=
  match k with
  | Title => "title" | Artist => "artist" | Album => "album"
  | Year => "year" | Comment => "comment" | Genre => "genre"
  end.

Definition set_field (k : Field) (v : list ascii) (d : TagData) : TagData :=
  match k with
  | Title => set_title v d | Artist => set_artist v d | Album => set_album v d
  | Year => set_year v d | Comment => set_comment v d | Genre => set_genre v d
  end.

(** The frames [write_id3_tags] emits for a record: one for each field
    present, in the order of the calls of [write_frame]. *)
Definition field_frame (k : Field) (d : TagData) : list Frame :=
  match get_field k d with
  | Some v => [mkFrame (field_id k) [NUL; NUL] v]
  | None => []
  end.

Definition field_frames (d : TagData) : list Frame :=
  field_frame Title d ++ field_frame Artist d ++ field_frame Album d
  ++ field_frame Year d ++ field_frame Comment d ++ field_frame Genre d.

(** An [fread] on the file [path]. *)
Definition is_fread_of (path : string) (c : IoCall) : Prop :=
  exists n, c = Fread path n.

(** The six lines of [display_help]. *)
Definition help_text : list string :=
  [ "Usage: mp3tagreader [options] filename";
    "Options:";
    "  -h               Display help";
    "  -v <filename>    View tags in an MP3 file";
    "  -w <filename>    Write dummy tags to an MP3 file";
    "  -e <tag> <filename> <value>  Edit a specific tag in an MP3 file" ].

(** The seven lines [display_metadata] prints for a record. *)
Definition metadata_lines (d : TagData) : list string :=
  [ ("Version: " ++ or_NA (version d))%string;
    ("Title:   " ++ or_NA (title d))%string;
    ("Artist:  " ++ or_NA (artist d))%string;
    ("Album:   " ++ or_NA (album d))%string;
    ("Year:    " ++ or_NA (year d))%string;
    ("Comment: " ++ or_NA (comment d))%string;
    ("Genre:   " ++ or_NA (genre d))%string ].

(** The command lines on which [main] reads or rewrites a file. *)
Definition operates (argv : list string) : Prop :=
  (arg argv 1 = "-v" /\ length argv = 3%nat) \/
  (arg argv 1 = "-w" /\ length argv = 3%nat) \/
  (arg argv 1 = "-e" /\ length argv = 5%nat).

(** More lines of standard error. *)
Definition msg_cannot_open : string := "Error: Cannot open file for reading.".
Definition msg_header : string := "Error: Failed to read ID3 header.".
Definition msg_no_tag : string := "Error: No ID3 tag found.".
Definition msg_open_orig : string := "Error: Cannot open original file for reading.".
Definition msg_open_temp : string := "Error: Cannot open temporary file for writing.".
Definition msg_write_failed : string := "Error: Failed to write tags.".
Definition msg_edit_failed : string := "Error: Failed to edit tag.".

(** ** More example files *)

(** A process that has printed nothing yet. *)
Definition start (w : World) : Process := mkProcess w [].

(** A world with one file in which the system refuses, as the two flags
    say, every [remove] and every [rename]. *)
Definition refusing (no_remove no_rename : bool) (path : string)
    (c : list ascii) : World :=
  mkWorld (<[path := c]> ∅) (fun _ _ => false) (fun _ => no_remove)
          (fun _ _ => no_rename) [] [].

(** A world in which no file can be created or truncated. *)
Definition read_only_world (path : string) (c : list ascii) : World :=
  mkWorld (<[path := c]> ∅)
          (fun _ m => match m with WBplus => true | RB => false end)
          (fun _ => false) (fun _ _ => false) [] [].

(** A world that holds a file named like the temporary file of
    [write_id3_tags] beside the file to rewrite. *)
Definition with_temp_file : World :=
  mkWorld (<["temp.mp3" := lit "keep me"]> (<["song.mp3" := scenario_file]> ∅))
          (fun _ _ => false) (fun _ => false) (fun _ _ => false) [] [].

(** A title frame, then an artist frame cut after twelve of its fourteen
    bytes, under a header that declares 29 bytes. *)
Definition cut_frame_file : list ascii :=
  skip_header ++ frames_bytes [skip_title]
  ++ take 12 (frame_bytes twice_artist).

(** The two frames of [skip_world] fill the declared 29 bytes; a further
    title frame follows them. *)
Definition late_frame_file : list ascii :=
  skip_header ++ frames_bytes [skip_unknown; skip_title]
  ++ frame_bytes (mkFrame (lit "TIT2") [NUL; NUL] (lit "Late")).

(** A record with a title, an empty genre, and the other fields absent. *)
Definition partial_tags : TagData :=
  mkTagData None (Some (lit "T")) None None None None (Some []).

(** ** Basic facts *)

Lemma add_io_add_io (a b : list IoCall) (w : World) :
  add_io b (add_io a w) = add_io (a ++ b) w.
Proof. unfold add_io; simpl. by rewrite <- app_assoc. Qed.

Lemma add_io_nil (w : World) : add_io [] w = w.
Proof. destruct w; unfold add_io; simpl. by rewrite app_nil_r. Qed.

Lemma bind_run {A B} (m : IO A) (k : A -> IO B) (w w' : World) (a : A) :
  m w = (a, w') -> bind m k w = k a w'.
Proof. unfold bind. by intros ->. Qed.

(** *** The validator *)

Lemma strrchr_suffix (s : string) (c : ascii) (ext : string) :
  strrchr s c = Some ext -> exists stem, s = (stem ++ ext)%string.
Proof.
  revert ext. induction s as [|a s IH]; intros ext; simpl; [done|].
  destruct (strrchr s c) as [e|] eqn:E.
  - intros [= <-]. destruct (IH e eq_refl) as [stem ->].
    by exists (String a stem).
  - destruct (Ascii.eqb a c); [|done]. intros [= <-]. by exists "".
Qed.

Lemma strrchr_mp3 (stem : string) :
  strrchr (stem ++ ".mp3")%string "." = Some ".mp3".
Proof.
  induction stem as [|a stem IH]; [reflexivity|].
  change (String a stem ++ ".mp3")%string with (String a (stem ++ ".mp3")%string).
  simpl. by rewrite IH.
Qed.

Lemma check_id3_tag_presence_spec (filename : string) :
  check_id3_tag_presence filename = true <->
  exists stem, filename = (stem ++ ".mp3")%string.
Proof.
  unfold check_id3_tag_presence. split.
  - destruct (strrchr filename ".") as [ext|] eqn:E; [|done].
    intros H%String.eqb_eq. subst ext. by eapply strrchr_suffix.
  - intros [stem ->]. by rewrite strrchr_mp3.
Qed.

(** *** Bytes and the big-endian size *)

Lemma byte_val_byte_of (z : Z) : byte_val (byte_of z) = (z mod 256)%Z.
Proof.
  unfold byte_val, byte_of.
  assert (0 <= z mod 256 < 256)%Z as Hr by (apply Z.mod_pos_bound; lia).
  rewrite N_ascii_embedding by lia. lia.
Qed.

Lemma byte_of_mod (z : Z) : byte_of (z mod 256) = byte_of z.
Proof. unfold byte_of. by rewrite Z.mod_mod. Qed.

Lemma int_wrap_small (z : Z) : (- 2 ^ 31 <= z < 2 ^ 31)%Z -> int_wrap z = z.
Proof. intros H. unfold int_wrap. rewrite Z.mod_small; lia. Qed.

(** One byte of a number, moved back to its place, as a bit test. *)
Lemma testbit_byte_at (n k i : Z) :
  (0 <= k)%Z -> (0 <= i)%Z ->
  Z.testbit (Z.shiftl ((n / 2 ^ k) mod 2 ^ 8) k) i =
  Z.testbit n i && (k <=? i)%Z && (i <? k + 8)%Z.
Proof.
  intros Hk Hi. rewrite Z.shiftl_spec by done.
  destruct (Z.leb_spec k i) as [Hle|Hlt].
  - destruct (Z.ltb_spec i (k + 8)) as [Hlo|Hhi].
    + rewrite Z.mod_pow2_bits_low by lia.
      rewrite Z.div_pow2_bits by lia.
      replace (i - k + k)%Z with i by lia. by rewrite !andb_true_r.
    + rewrite Z.mod_pow2_bits_high by lia. by rewrite andb_false_r.
  - rewrite Z.testbit_neg_r by lia. by rewrite andb_false_r.
Qed.

Lemma be_bytes_sum (n : Z) :
  (0 <= n < 2 ^ 32)%Z ->
  Z.lor (Z.lor (Z.lor
    (Z.shiftl ((n / 2 ^ 24) mod 256) 24)
    (Z.shiftl ((n / 2 ^ 16) mod 256) 16))
    (Z.shiftl ((n / 2 ^ 8) mod 256) 8))
    (n mod 256) = n.
Proof.
  intros Hn. apply Z.bits_inj'. intros i Hi.
  replace (n mod 256)%Z with (Z.shiftl ((n / 2 ^ 0) mod 2 ^ 8) 0)
    by (rewrite Z.shiftl_0_r, Z.pow_0_r, Z.div_1_r; done).
  change 256%Z with (2 ^ 8)%Z.
  rewrite !Z.lor_spec, !testbit_byte_at by lia.
  destruct (Z.testbit n i) eqn:Hb; simpl.
  - assert (i < 32)%Z as Hlt.
    { destruct (Z.lt_ge_cases i 32) as [|Hge]; [done|].
      rewrite <- (Z.mod_small n (2 ^ 32)) in Hb by lia.
      rewrite Z.mod_pow2_bits_high in Hb by lia. done. }
    destruct (Z.leb_spec 24 i), (Z.leb_spec 16 i), (Z.leb_spec 8 i),
      (Z.leb_spec 0 i), (Z.ltb_spec i (24 + 8)), (Z.ltb_spec i (16 + 8)),
      (Z.ltb_spec i (8 + 8)), (Z.ltb_spec i (0 + 8)); simpl; try done; lia.
  - done.
Qed.

Lemma frame_size_be32 (n : Z) :
  (0 <= n < 2 ^ 31)%Z -> frame_size (be32 n) = n.
Proof.
  intros Hn. unfold frame_size, be32, at_index; simpl.
  rewrite !byte_val_byte_of, be_bytes_sum by lia.
  apply int_wrap_small; lia.
Qed.

(** The size bytes [write_frame] computes with shifts and masks. *)
Lemma shift_mask_byte (n k : Z) :
  (0 <= k)%Z -> byte_of (Z.land (Z.shiftr n k) 255) = byte_of (n / 2 ^ k).
Proof.
  intros Hk. rewrite Z.shiftr_div_pow2 by done.
  change 255%Z with (Z.ones 8). rewrite Z.land_ones by lia.
  change (2 ^ 8)%Z with 256%Z. apply byte_of_mod.
Qed.

Lemma size_bytes_be32 (n : Z) :
  [ byte_of (Z.land (Z.shiftr n 24) 255); byte_of (Z.land (Z.shiftr n 16) 255);
    byte_of (Z.land (Z.shiftr n 8) 255); byte_of (Z.land n 255) ] = be32 n.
Proof.
  unfold be32. rewrite !shift_mask_byte by lia.
  change 255%Z with (Z.ones 8). rewrite Z.land_ones by lia.
  change (2 ^ 8)%Z with 256%Z. by rewrite byte_of_mod.
Qed.

Lemma length_be32 (n : Z) : length (be32 n) = 4%nat.
Proof. reflexivity. Qed.

(** *** C strings *)

Lemma strdup_c_string (v : list ascii) : NUL ∉ v -> strdup v = v.
Proof.
  induction v as [|c v IH]; [done|]. intros H. simpl.
  destruct (Ascii.eqb_spec c NUL) as [->|_].
  - exfalso. apply H. constructor.
  - f_equal. apply IH. intros Hin. apply H. by constructor.
Qed.

Lemma strdup_nul (p q : list ascii) : NUL ∉ p -> strdup (p ++ NUL :: q) = p.
Proof.
  induction p as [|c p IH]; intros H; simpl; [done|].
  destruct (Ascii.eqb_spec c NUL) as [->|_].
  - exfalso. apply H. constructor.
  - f_equal. apply IH. intros Hin. apply H. by constructor.
Qed.

Lemma strdup_no_nul (v : list ascii) : NUL ∉ strdup v.
Proof.
  induction v as [|c v IH]; simpl; [by intros ?%elem_of_nil|].
  destruct (Ascii.eqb_spec c NUL) as [->|Hc]; [by intros ?%elem_of_nil|].
  intros [?|?]%elem_of_cons; [congruence|done].
Qed.

(** *** Streams *)

Lemma drop_split {A} (c pre post : list A) (pos : nat) :
  drop pos c = pre ++ post -> drop (pos + length pre) c = post.
Proof. intros H. rewrite <- drop_drop, H. apply drop_app_length. Qed.

Lemma fread_prefix (path : string) (pos : nat) (n : Z) (w : World)
    (c pre post : list ascii) :
  files w !! path = Some c -> drop pos c = pre ++ post ->
  n = Z.of_nat (length pre) ->
  fread n (mkFILE path pos) w =
  ((pre, mkFILE path (pos + length pre)), add_io [Fread path n] w).
Proof.
  intros Hc Hd ->. unfold fread, contents; simpl. rewrite Hc; simpl.
  rewrite Hd, length_app, Z.min_l, Nat2Z.id, take_app_length by lia.
  done.
Qed.

Lemma fread_run (path : string) (pos : nat) (n : Z) (w : World) (c : list ascii) :
  files w !! path = Some c -> (0 <= n)%Z ->
  fread n (mkFILE path pos) w =
  ((take (Z.to_nat n) (drop pos c),
    mkFILE path (pos + length (take (Z.to_nat n) (drop pos c)))),
   add_io [Fread path n] w).
Proof.
  intros Hc Hn. unfold fread, contents; simpl. rewrite Hc; simpl.
  destruct (Z.le_ge_cases n (Z.of_nat (length (drop pos c)))) as [Hle|Hge].
  - by rewrite Z.min_l.
  - rewrite Z.min_r, Nat2Z.id by done.
    rewrite firstn_all, take_ge by lia. done.
Qed.

Lemma length_frame_bytes (f : Frame) :
  wf_frame f -> length (frame_bytes f) = (10 + length (frame_body f))%nat.
Proof.
  intros (Hid & _ & Hfl & _). unfold frame_bytes.
  rewrite !length_app, Hid, Hfl, length_be32. lia.
Qed.

(** *** The frame loop *)

Section ReadLoop.

(** The loop runs up to [tagEnd] on the file [path], whose bytes are [c]. *)
Variables (tagEnd : Z) (path : string) (c : list ascii).

Lemma read_frames_step (fuel pos : nat) (data : TagData) (w : World)
    (f : Frame) (rest : list ascii) :
  files w !! path = Some c ->
  drop pos c = frame_bytes f ++ rest ->
  wf_frame f -> (Z.of_nat pos < tagEnd)%Z ->
  read_frames (S fuel) tagEnd (mkFILE path pos) data w =
  read_frames fuel tagEnd (mkFILE path (pos + length (frame_bytes f)))
    (store_frame (frame_id f) (frame_body f) data)
    (add_io [Fread path 4; Fread path 4; Fread path 2;
             Fread path (Z.of_nat (length (frame_body f)))] w).
Proof.
  intros Hc Hd (Hid & Hnz & Hfl & Hlen) Hpos.
  unfold frame_bytes in Hd. rewrite <- !app_assoc in Hd.
  cbn [read_frames]. unfold ftell; cbn [f_pos].
  destruct (Z.ltb_spec (Z.of_nat pos) tagEnd) as [_|]; [|lia].
  erewrite bind_run by (eapply fread_prefix; [exact Hc|exact Hd|by rewrite Hid]).
  cbv beta iota. apply drop_split in Hd. rewrite Hid in Hd |- *.
  cbn [Nat.eqb negb].
  erewrite bind_run by (eapply fread_prefix; [exact Hc|exact Hd|done]).
  cbv beta iota. apply drop_split in Hd. rewrite length_be32 in Hd |- *.
  cbn [Nat.eqb negb].
  erewrite bind_run by (eapply fread_prefix; [exact Hc|exact Hd|by rewrite Hfl]).
  cbv beta iota. apply drop_split in Hd. rewrite Hfl in Hd |- *.
  cbn [Nat.eqb negb].
  destruct (Ascii.eqb_spec (at_index (frame_id f) 0) NUL) as [|_]; [done|].
  unfold INT_MAX in Hlen.
  rewrite frame_size_be32 by lia.
  rewrite (int_wrap_small (_ + 1)) by lia.
  unfold size_t_of_int, malloc.
  rewrite !Z.mod_small by lia.
  destruct (Z.ltb_spec (Z.of_nat (length (frame_body f)) + 1) (2 ^ 63)) as [_|]; [|lia].
  cbn [negb].
  erewrite bind_run by (eapply fread_prefix; [exact Hc|exact Hd|done]).
  cbv beta iota. rewrite Z.eqb_refl; cbn [negb].
  rewrite add_io_add_io. rewrite !add_io_add_io. cbn [app].
  do 2 f_equal. unfold frame_bytes.
  rewrite !length_app, Hid, Hfl, length_be32. lia.
Qed.

(** One round of the loop, whatever the bytes: it either leaves the loop
    with the record unchanged, or it has taken a whole frame and goes on. *)
Ltac run_fread Hc :=
  erewrite bind_run by (apply fread_run; [exact Hc | try lia]);
  cbv beta iota;
  change (Z.to_nat 4) with 4%nat; change (Z.to_nat 2) with 2%nat.

Ltac leave_loop :=
  cbn [negb]; unfold ret; rewrite ?add_io_add_io; reflexivity.

Lemma size_t_of_int_nonneg (z : Z) : (0 <= size_t_of_int z)%Z.
Proof. unfold size_t_of_int. apply Z.mod_pos_bound. lia. Qed.

Lemma read_frames_round (pos : nat) (data : TagData) (w : World) :
  files w !! path = Some c ->
  (stops tagEnd (Z.of_nat pos) (drop pos c) /\
   exists pos' cs, Forall is_read_call cs /\
     forall fuel, read_frames (S fuel) tagEnd (mkFILE path pos) data w =
                  ((mkFILE path pos', data), add_io cs w))
  \/
  (exists id body cs, takes_frame tagEnd pos c id body /\
     Forall is_read_call cs /\
     forall fuel, read_frames (S fuel) tagEnd (mkFILE path pos) data w =
                  read_frames fuel tagEnd (mkFILE path (pos + 10 + length body))
                    (store_frame id body data) (add_io cs w)).
Proof.
  intros Hc.
  destruct (Z.ltb_spec (Z.of_nat pos) tagEnd) as [Hlt|Hge]; cycle 1.
  { left. split; [by left|]. exists pos, []. split; [constructor|].
    intros fuel. cbn [read_frames]. unfold ftell; cbn [f_pos].
    destruct (Z.ltb_spec (Z.of_nat pos) tagEnd); [lia|].
    by rewrite add_io_nil. }
  assert (forall fuel, read_frames (S fuel) tagEnd (mkFILE path pos) data w =
      bind (fread 4 (mkFILE path pos)) (fun x => match x with (frameId, fp) =>
      if negb (length frameId =? 4)%nat then ret (fp, data) else
      '(sizeBytes, fp) <- fread 4 fp ;;
      if negb (length sizeBytes =? 4)%nat then ret (fp, data) else
      '(flags, fp) <- fread 2 fp ;;
      if negb (length flags =? 2)%nat then ret (fp, data) else
      if Ascii.eqb (at_index frameId 0) NUL then ret (fp, data) else
      let frameSize := frame_size sizeBytes in
      if negb (malloc (size_t_of_int (int_wrap (frameSize + 1)))) then
        ret (fp, data)
      else
      '(content, fp) <- fread (size_t_of_int frameSize) fp ;;
      if negb (Z.of_nat (length content) =? size_t_of_int frameSize)%Z then
        ret (fp, data)
      else
      read_frames fuel tagEnd fp (store_frame frameId content data) end) w) as Hunf.
  { intros fuel. cbn [read_frames]. unfold ftell; cbn [f_pos].
    destruct (Z.ltb_spec (Z.of_nat pos) tagEnd); [done|lia]. }
  assert (drop 4 (drop pos c) = drop (pos + 4) c) as D4 by apply drop_drop.
  assert (drop 10 (drop pos c) = drop (pos + 4 + 4 + 2) c) as D10.
  { rewrite drop_drop. f_equal. lia. }
  destruct (Nat.eqb_spec (length (take 4 (drop pos c))) 4) as [L1|L1]; cycle 1.
  { left. split.
    { right; left. rewrite length_take in L1. lia. }
    eexists _, _. split; cycle 1.
    - intros fuel. rewrite Hunf. run_fread Hc.
      destruct (Nat.eqb_spec (length (take 4 (drop pos c))) 4); [done|].
      leave_loop.
    - repeat constructor. }
  destruct (Nat.eqb_spec (length (take 4 (drop (pos + 4) c))) 4) as [L2|L2]; cycle 1.
  { left. split.
    { right; left. rewrite length_take, length_drop in L2.
      rewrite length_drop. lia. }
    eexists _, _. split; cycle 1.
    - intros fuel. rewrite Hunf. run_fread Hc. rewrite L1. cbn [Nat.eqb negb].
      run_fread Hc.
      destruct (Nat.eqb_spec (length (take 4 (drop (pos + 4) c))) 4); [done|].
      leave_loop.
    - repeat constructor. }
  destruct (Nat.eqb_spec (length (take 2 (drop (pos + 4 + 4) c))) 2) as [L3|L3]; cycle 1.
  { left. split.
    { right; left. rewrite length_take, length_drop in L3.
      rewrite length_drop. lia. }
    eexists _, _. split; cycle 1.
    - intros fuel. rewrite Hunf. run_fread Hc. rewrite L1. cbn [Nat.eqb negb].
      run_fread Hc. rewrite L2. cbn [Nat.eqb negb]. run_fread Hc.
      destruct (Nat.eqb_spec (length (take 2 (drop (pos + 4 + 4) c))) 2); [done|].
      leave_loop.
    - repeat constructor. }
  assert (10 <= length (drop pos c))%nat as Hten.
  { rewrite length_take in L1, L2, L3. rewrite length_drop in *. lia. }
  assert (at_index (take 4 (drop pos c)) 0 = at_index (drop pos c) 0) as Hfirst.
  { unfold at_index. by destruct (drop pos c). }
  destruct (Ascii.eqb (at_index (take 4 (drop pos c)) 0) NUL) eqn:L4.
  { left. split.
    { right; right; left. rewrite <- Hfirst. by apply Ascii.eqb_eq. }
    eexists _, _. split; cycle 1.
    - intros fuel. rewrite Hunf. run_fread Hc. rewrite L1. cbn [Nat.eqb negb].
      run_fread Hc. rewrite L2. cbn [Nat.eqb negb]. run_fread Hc.
      rewrite L3. cbn [Nat.eqb negb]. rewrite L4. leave_loop.
    - repeat constructor. }
  destruct (malloc (size_t_of_int (int_wrap
              (frame_size (take 4 (drop (pos + 4) c)) + 1)))) eqn:L5; cycle 1.
  { left. split.
    { right; right; right. left. by rewrite D4. }
    eexists _, _. split; cycle 1.
    - intros fuel. rewrite Hunf. run_fread Hc. rewrite L1. cbn [Nat.eqb negb].
      run_fread Hc. rewrite L2. cbn [Nat.eqb negb]. run_fread Hc.
      rewrite L3. cbn [Nat.eqb negb]. rewrite L4. cbv zeta. rewrite L5.
      leave_loop.
    - repeat constructor. }
  pose proof (size_t_of_int_nonneg (frame_size (take 4 (drop (pos + 4) c)))) as Hn.
  destruct (Z.eqb_spec
    (Z.of_nat (length (take (Z.to_nat (size_t_of_int
        (frame_size (take 4 (drop (pos + 4) c))))) (drop (pos + 4 + 4 + 2) c))))
    (size_t_of_int (frame_size (take 4 (drop (pos + 4) c))))) as [L6|L6]; cycle 1.
  { left. split.
    { right; right; right. right. rewrite D4, D10.
      rewrite length_take in L6. lia. }
    eexists _, _. split; cycle 1.
    - intros fuel. rewrite Hunf. run_fread Hc. rewrite L1. cbn [Nat.eqb negb].
      run_fread Hc. rewrite L2. cbn [Nat.eqb negb]. run_fread Hc.
      rewrite L3. cbn [Nat.eqb negb]. rewrite L4. cbv zeta. rewrite L5.
      cbn [negb]. run_fread Hc.
      match goal with |- context [Z.eqb ?a ?b] =>
        destruct (Z.eqb_spec a b); [done|] end.
      leave_loop.
    - repeat constructor. }
  right. eexists _, _, _. split; [|split]; cycle 2.
  - intros fuel. rewrite Hunf. run_fread Hc. rewrite L1. cbn [Nat.eqb negb].
    run_fread Hc. rewrite L2. cbn [Nat.eqb negb]. run_fread Hc.
    rewrite L3. cbn [Nat.eqb negb]. rewrite L4. cbv zeta. rewrite L5.
    cbn [negb]. run_fread Hc. rewrite L6, Z.eqb_refl. cbn [negb].
    rewrite !add_io_add_io.
    replace (pos + 4 + 4 + 2)%nat with (pos + 10)%nat by lia.
    reflexivity.
  - unfold takes_frame. cbv zeta. rewrite D4, D10.
    replace (pos + 4 + 4 + 2)%nat with (pos + 10)%nat by lia.
    repeat split; try done.
    + rewrite <- Hfirst. by apply Ascii.eqb_neq.
    + replace (pos + 10)%nat with (pos + 4 + 4 + 2)%nat by lia. exact L6.
  - repeat constructor.
Qed.

Lemma stops_or_takes_frame (pos : nat) (id body : list ascii) :
  stops tagEnd (Z.of_nat pos) (drop pos c) ->
  takes_frame tagEnd pos c id body -> False.
Proof.
  unfold stops, takes_frame. cbv zeta.
  intros [?|[?|[?|[?|?]]]] (Hlt & Hlen & Hnz & _ & Hm & -> & Hb);
    [lia|lia|done|congruence|].
  rewrite length_take in Hb. lia.
Qed.

(** The loop only reads: it changes nothing but the log of calls. *)
Lemma read_frames_reads (fuel : nat) :
  forall (pos : nat) (data : TagData) (w : World),
  files w !! path = Some c ->
  exists pos' d' cs,
    read_frames fuel tagEnd (mkFILE path pos) data w =
    ((mkFILE path pos', d'), add_io cs w)
    /\ Forall is_read_call cs.
Proof.
  induction fuel as [|fuel IH]; intros pos data w Hc.
  - exists pos, data, []. by rewrite add_io_nil.
  - destruct (read_frames_round pos data w Hc)
      as [(_ & pos' & cs & Hcs & Hrun)|(id & body & cs & _ & Hcs & Hrun)].
    + rewrite Hrun. by eexists _, _, _.
    + rewrite Hrun.
      destruct (IH (pos + 10 + length body)%nat (store_frame id body data)
                  (add_io cs w) Hc)
        as (pos' & d' & cs' & -> & Hcs').
      rewrite add_io_add_io. eexists _, _, _. split; [done|].
      by apply Forall_app.
Qed.

(** The bound of the loop is never what ends it: any two amounts of fuel
    above the number of bytes left give the same run. *)
Lemma read_frames_fuel (fuel1 : nat) :
  forall (fuel2 pos : nat) (data : TagData) (w : World),
  files w !! path = Some c ->
  (length (drop pos c) < fuel1)%nat -> (length (drop pos c) < fuel2)%nat ->
  read_frames fuel1 tagEnd (mkFILE path pos) data w =
  read_frames fuel2 tagEnd (mkFILE path pos) data w.
Proof.
  induction fuel1 as [|fuel1 IH]; intros fuel2 pos data w Hc H1 H2; [lia|].
  destruct fuel2 as [|fuel2]; [lia|].
  destruct (read_frames_round pos data w Hc)
    as [(_ & pos' & cs & _ & Hrun)|(id & body & cs & Htakes & _ & Hrun)].
  - by rewrite !Hrun.
  - rewrite !Hrun. destruct Htakes as (_ & Hlen & _).
    rewrite length_drop in *.
    apply IH; [done|rewrite length_drop; lia..].
Qed.

Lemma read_frames_stop (fuel pos : nat) (data : TagData) (w : World) :
  files w !! path = Some c ->
  stops tagEnd (Z.of_nat pos) (drop pos c) ->
  snd (fst (read_frames (S fuel) tagEnd (mkFILE path pos) data w)) = data.
Proof.
  intros Hc Hstop.
  destruct (read_frames_round pos data w Hc)
    as [(_ & pos' & cs & _ & Hrun)|(id & body & cs & Htakes & _)].
  - by rewrite Hrun.
  - by destruct (stops_or_takes_frame _ _ _ Hstop Htakes).
Qed.

Lemma frames_bytes_cons (f : Frame) (fs : list Frame) :
  frames_bytes (f :: fs) = frame_bytes f ++ frames_bytes fs.
Proof. reflexivity. Qed.

Lemma frames_bytes_app (fs gs : list Frame) :
  frames_bytes (fs ++ gs) = frames_bytes fs ++ frames_bytes gs.
Proof. unfold frames_bytes. by rewrite map_app, concat_app. Qed.

(** The loop on a sequence of well-formed frames stores them in order. *)
Lemma read_frames_frames (tail : list ascii) (fs : list Frame) :
  forall (fuel pos : nat) (data : TagData) (w : World),
  files w !! path = Some c ->
  drop pos c = frames_bytes fs ++ tail ->
  frames_fit tagEnd (Z.of_nat pos) fs ->
  stops tagEnd (Z.of_nat pos + Z.of_nat (length (frames_bytes fs))) tail ->
  (length fs < fuel)%nat ->
  snd (fst (read_frames fuel tagEnd (mkFILE path pos) data w)) =
  store_frames fs data.
Proof.
  induction fs as [|f fs IH]; intros fuel pos data w Hc Hd Hfit Hstop Hfuel;
    (destruct fuel as [|fuel]; [simpl in Hfuel; lia|]).
  - apply read_frames_stop; [done|].
    rewrite Hd. simpl in Hstop. by rewrite Z.add_0_r in Hstop.
  - destruct Hfit as (Hwf & Hpos & Hfit).
    rewrite frames_bytes_cons, <- app_assoc in Hd.
    rewrite (read_frames_step _ _ _ _ f _ Hc Hd Hwf Hpos).
    pose proof (drop_split _ _ _ _ Hd) as Hd'.
    change (store_frames (f :: fs) data)
      with (store_frames fs (store_frame (frame_id f) (frame_body f) data)).
    apply IH; [done|done| | |simpl in Hfuel; lia].
    + by rewrite Nat2Z.inj_add.
    + rewrite frames_bytes_cons, length_app in Hstop.
      by rewrite Nat2Z.inj_add, <- Z.add_assoc, <- Nat2Z.inj_add.
Qed.

End ReadLoop.

(** *** [read_id3_tags] as a whole *)

Lemma reads_only_refl (w : World) : reads_only w w.
Proof.
  repeat split; [exists []|exists []]; rewrite app_nil_r; [done|].
  split; [done|constructor].
Qed.

Lemma reads_only_trans (w1 w2 w3 : World) :
  reads_only w1 w2 -> reads_only w2 w3 -> reads_only w1 w3.
Proof.
  intros (F1 & A1 & B1 & C1 & (es1 & E1) & (cs1 & I1 & R1))
         (F2 & A2 & B2 & C2 & (es2 & E2) & (cs2 & I2 & R2)).
  repeat split; try congruence.
  - exists (es1 ++ es2). by rewrite E2, E1, app_assoc.
  - exists (cs1 ++ cs2). split; [by rewrite I2, I1, app_assoc|].
    by apply Forall_app.
Qed.

Lemma reads_only_add_io (cs : list IoCall) (w : World) :
  Forall is_read_call cs -> reads_only w (add_io cs w).
Proof.
  intros H. repeat split; [exists []; by rewrite app_nil_r|by exists cs].
Qed.

Lemma reads_only_add_err (line : string) (w : World) :
  reads_only w (add_err line w).
Proof.
  repeat split; [by exists [line]|exists []; rewrite app_nil_r].
  split; [done|constructor].
Qed.

Lemma fopen_rb (path : string) (w : World) :
  fopen path RB w =
  (if deny_open w path RB then None
   else match files w !! path with
        | Some _ => Some (mkFILE path 0)
        | None => None
        end,
   add_io [Fopen path RB] w).
Proof.
  unfold fopen. destruct (deny_open w path RB); [done|].
  by destruct (files w !! path).
Qed.

(** The run of [read_id3_tags] on a file that opens and starts with a tag
    header: the loop runs from offset 10 and its record is returned. *)
Lemma read_id3_tags_tagged (path : string) (w : World) (c : list ascii) :
  check_id3_tag_presence path = true ->
  files w !! path = Some c -> deny_open w path RB = false ->
  (10 <= length c)%nat -> take 3 c = lit "ID3" ->
  exists pos' d cs,
    Forall is_read_call cs /\
    read_frames (S (length c)) (Z.of_nat 10 + tag_size (take 10 c))
      (mkFILE path 10) (initial_tag (take 10 c))
      (add_io [Fopen path RB; Fread path 10] w)
    = ((mkFILE path pos', d), add_io ([Fopen path RB; Fread path 10] ++ cs) w) /\
    read_id3_tags path w =
    (Some d, add_io ([Fopen path RB; Fread path 10] ++ cs ++ [Fclose path]) w).
Proof.
  intros Hck Hc Hd Hlen Hmagic.
  destruct (read_frames_reads (Z.of_nat 10 + tag_size (take 10 c)) path c
              (S (length c)) 10 (initial_tag (take 10 c))
              (add_io [Fopen path RB; Fread path 10] w) Hc)
    as (pos' & d & cs & Hrun & Hcs).
  rewrite add_io_add_io in Hrun.
  exists pos', d, cs. split; [done|]. split; [done|].
  unfold read_id3_tags.
  rewrite Hck. cbn [negb].
  erewrite bind_run by (rewrite fopen_rb, Hd, Hc; reflexivity).
  cbv beta iota.
  erewrite bind_run by (apply fread_run; [exact Hc|lia]).
  cbv beta iota. change (Z.to_nat 10) with 10%nat. rewrite drop_0.
  rewrite length_take, Nat.min_l by done. cbn [Nat.eqb negb].
  unfold memcmp. rewrite take_take. change (3 `min` 10)%nat with 3%nat.
  rewrite Hmagic. rewrite bool_decide_eq_true_2 by done. cbn [negb].
  rewrite add_io_add_io. cbn [app].
  unfold bind at 1. unfold file_length, contents. cbn [f_path files add_io].
  rewrite Hc. cbn [default id Nat.add].
  fold (initial_tag (take 10 c)).
  change (mkWorld (files w) (deny_open w) (deny_remove w) (deny_rename w)
            (stderr w) (io w ++ [Fopen path RB; Fread path 10]))
    with (add_io [Fopen path RB; Fread path 10] w).
  unfold ftell. cbn [f_pos].
  erewrite bind_run by exact Hrun. cbv beta iota.
  unfold bind, fclose, ret. cbn [f_path].
  rewrite add_io_add_io. by rewrite <- app_assoc.
Qed.

Ltac reads_only_layers :=
  match goal with
  | |- reads_only ?w ?w => apply reads_only_refl
  | |- reads_only ?w (add_io ?cs ?w1) =>
      apply (reads_only_trans w w1 _);
      [reads_only_layers
      |apply reads_only_add_io; first [assumption | repeat constructor]]
  | |- reads_only ?w (add_err ?l ?w1) =>
      apply (reads_only_trans w w1 _);
      [reads_only_layers | apply reads_only_add_err]
  end.

(** Whatever it returns, [read_id3_tags] only reads. *)
Lemma read_id3_tags_reads_only (path : string) (w : World) :
  reads_only w (snd (read_id3_tags path w)).
Proof.
  unfold read_id3_tags.
  destruct (check_id3_tag_presence path) eqn:Hck; cbn [negb];
    [|unfold bind, display_error, ret; cbn [snd]; reads_only_layers].
  unfold bind at 1. rewrite fopen_rb.
  destruct (deny_open w path RB) eqn:Hd.
  { unfold bind, display_error, ret; cbn [snd]. reads_only_layers. }
  destruct (files w !! path) as [c|] eqn:Hc; cycle 1.
  { unfold bind, display_error, ret; cbn [snd]. reads_only_layers. }
  erewrite bind_run by (apply fread_run; [exact Hc|lia]).
  cbv beta iota. change (Z.to_nat 10) with 10%nat. rewrite drop_0.
  destruct (length (take 10 c) =? 10)%nat eqn:Hlen; cbn [negb].
  2: { unfold bind, display_error, fclose, ret; cbn [snd f_path].
       reads_only_layers. }
  destruct (memcmp (take 10 c) (lit "ID3") 3) eqn:Hmagic; cbn [negb].
  2: { unfold bind, display_error, fclose, ret; cbn [snd f_path].
       reads_only_layers. }
  unfold bind at 1. unfold file_length, contents. cbn [f_path files add_io].
  rewrite Hc. cbn [default id Nat.add].
  match goal with
  |- context [bind (read_frames ?fu ?te (mkFILE _ ?p) ?da) _ ?wo] =>
    destruct (read_frames_reads te path c fu p da wo Hc)
      as (pos' & d & cs & Hrun & Hcs)
  end.
  erewrite bind_run by exact Hrun. cbv beta iota.
  unfold bind, fclose, ret. cbn [f_path snd].
  match goal with |- reads_only _ (add_io _ (add_io _ ?w0)) =>
    change w0 with (add_io [Fread path 10] (add_io [Fopen path RB] w)) end.
  reads_only_layers.
Qed.

Lemma read_id3_tags_fails (path : string) (w : World) :
  unreadable path w -> fst (read_id3_tags path w) = None.
Proof.
  intros H. unfold read_id3_tags.
  destruct (check_id3_tag_presence path) eqn:Hck; cbn [negb]; [|done].
  unfold bind at 1. rewrite fopen_rb.
  destruct (deny_open w path RB) eqn:Hd; [done|].
  destruct (files w !! path) as [c|] eqn:Hc; [|done].
  destruct H as [?|[?|H]]; [congruence..|]. rewrite Hc in H.
  erewrite bind_run by (apply fread_run; [exact Hc|lia]).
  cbv beta iota. change (Z.to_nat 10) with 10%nat. rewrite drop_0.
  rewrite length_take.
  destruct (Nat.eqb_spec (10 `min` length c) 10) as [Hlen|Hlen]; [|done].
  destruct H as [?|H]; [lia|].
  cbn [negb]. unfold memcmp. rewrite take_take.
  change (3 `min` 10)%nat with 3%nat.
  rewrite bool_decide_eq_false_2 by done. done.
Qed.

Lemma readable_or_not (path : string) (w : World) :
  unreadable path w \/
  exists c, check_id3_tag_presence path = true /\ files w !! path = Some c /\
    deny_open w path RB = false /\ (10 <= length c)%nat /\ take 3 c = lit "ID3".
Proof.
  unfold unreadable.
  destruct (check_id3_tag_presence path); [|by left; left].
  destruct (deny_open w path RB); [by left; right; left|].
  destruct (files w !! path) as [c|]; [|by left; right; right].
  destruct (Nat.le_gt_cases 10 (length c)); [|by left; right; right; left].
  destruct (decide (take 3 c = lit "ID3")); [|by left; right; right; right].
  right. by exists c.
Qed.

(** A successful [read_id3_tags] prints nothing. *)
Lemma read_id3_tags_quiet (path : string) (w : World) (d : TagData) :
  fst (read_id3_tags path w) = Some d ->
  stderr (snd (read_id3_tags path w)) = stderr w.
Proof.
  intros Hsome.
  destruct (readable_or_not path w) as [Hno|(c & Hck & Hc & Hd & Hlen & Hmagic)].
  - by rewrite (read_id3_tags_fails _ _ Hno) in Hsome.
  - destruct (read_id3_tags_tagged path w c Hck Hc Hd Hlen Hmagic)
      as (pos' & d' & cs & _ & _ & Hrun).
    by rewrite Hrun.
Qed.

(** *** Reading a tag made of well-formed frames *)

Lemma frames_fit_wf (tagEnd : Z) (fs : list Frame) :
  forall pos, frames_fit tagEnd pos fs -> Forall wf_frame fs.
Proof.
  induction fs as [|f fs IH]; intros pos H; [constructor|].
  destruct H as (Hwf & _ & H). constructor; [done|by eapply IH].
Qed.

Lemma frames_bytes_length (fs : list Frame) :
  Forall wf_frame fs -> (length fs <= length (frames_bytes fs))%nat.
Proof.
  induction 1 as [|f fs Hwf _ IH]; [done|].
  rewrite frames_bytes_cons, length_app, length_frame_bytes by done.
  simpl. lia.
Qed.

Lemma read_id3_tags_frames (path : string) (w : World) (hdr : list ascii)
    (fs : list Frame) (tail : list ascii) :
  holds_tag path w hdr fs tail ->
  fst (read_id3_tags path w) = Some (store_frames fs (initial_tag hdr)) /\
  stderr (snd (read_id3_tags path w)) = stderr w.
Proof.
  intros (Hck & Hc & Hd & Hlen & Hmagic & Hfit & Hstop).
  set (c := hdr ++ frames_bytes fs ++ tail) in *.
  assert (take 10 c = hdr) as Hhdr.
  { unfold c. by rewrite <- Hlen, take_app_length. }
  assert (drop 10 c = frames_bytes fs ++ tail) as Hrest.
  { unfold c. by rewrite <- Hlen, drop_app_length. }
  assert (10 <= length c)%nat as Hlen'.
  { unfold c. rewrite length_app. lia. }
  assert (take 3 c = lit "ID3") as Hmagic'.
  { rewrite <- Hmagic, <- Hhdr, take_take. done. }
  destruct (read_id3_tags_tagged path w c Hck Hc Hd Hlen' Hmagic')
    as (pos' & d & cs & _ & Hloop & Hrun).
  rewrite Hrun. cbn [fst snd]. split; [|done]. f_equal.
  rewrite Hhdr in Hloop.
  pose proof (read_frames_frames (Z.of_nat 10 + tag_size hdr) path c tail fs
    (S (length c)) 10 (initial_tag hdr)
    (add_io [Fopen path RB; Fread path 10] w) Hc Hrest) as Hfs.
  rewrite Hloop in Hfs. cbn [fst snd] in Hfs. apply Hfs; [done|done|].
  pose proof (frames_bytes_length fs (frames_fit_wf _ _ _ Hfit)).
  unfold c. rewrite !length_app. lia.
Qed.

(** *** What [store_frame] does to one field *)

Lemma strdup_prefix_length (v : list ascii) :
  length (strdup v) = length v -> strdup v = v.
Proof.
  induction v as [|c v IH]; [done|]. simpl.
  destruct (Ascii.eqb c NUL); simpl; [done|].
  intros [= H]. f_equal. by apply IH.
Qed.

(** On four-byte identifiers [strcmp] with a field's identifier is equality. *)
Lemma strcmp_field_id (id : list ascii) (k : Field) :
  length id = 4%nat -> strcmp id (field_id k) = bool_decide (id = field_id k).
Proof.
  intros Hid. unfold strcmp.
  assert (strdup (field_id k) = field_id k) as -> by (by destruct k).
  apply bool_decide_ext. split; [|intros ->; by destruct k].
  intros H. rewrite <- H. symmetry. apply strdup_prefix_length.
  rewrite H, Hid. by destruct k.
Qed.

Lemma get_field_store_frame (k : Field) (id body : list ascii) (d : TagData) :
  length id = 4%nat ->
  get_field k (store_frame id body d) =
  if bool_decide (id = field_id k) then Some (strdup body) else get_field k d.
Proof.
  intros Hid. unfold store_frame.
  generalize (strcmp_field_id id Title Hid), (strcmp_field_id id Artist Hid),
    (strcmp_field_id id Album Hid), (strcmp_field_id id Year Hid),
    (strcmp_field_id id Comment Hid), (strcmp_field_id id Genre Hid).
  cbn [field_id]. intros -> -> -> -> -> ->.
  destruct k; repeat case_bool_decide; subst; try done.
Qed.

Lemma store_frame_unknown (id body : list ascii) (d : TagData) :
  length id = 4%nat -> (forall k, id <> field_id k) -> store_frame id body d = d.
Proof.
  intros Hid Hun. unfold store_frame.
  generalize (strcmp_field_id id Title Hid), (strcmp_field_id id Artist Hid),
    (strcmp_field_id id Album Hid), (strcmp_field_id id Year Hid),
    (strcmp_field_id id Comment Hid), (strcmp_field_id id Genre Hid).
  cbn [field_id]. intros -> -> -> -> -> ->.
  generalize (Hun Title), (Hun Artist), (Hun Album), (Hun Year),
    (Hun Comment), (Hun Genre). cbn [field_id]. intros.
  by rewrite !bool_decide_eq_false_2 by done.
Qed.

Lemma store_frames_app (fs gs : list Frame) (d : TagData) :
  store_frames (fs ++ gs) d = store_frames gs (store_frames fs d).
Proof. apply fold_left_app. Qed.

(** Frames of other identifiers leave a field alone. *)
Lemma get_field_store_others (k : Field) (fs : list Frame) :
  forall d, Forall wf_frame fs ->
  (forall g, g ∈ fs -> frame_id g <> field_id k) ->
  get_field k (store_frames fs d) = get_field k d.
Proof.
  induction fs as [|g fs IH]; intros d Hwf Hne; [done|].
  inversion Hwf as [|? ? Hg Hfs]; subst.
  change (store_frames (g :: fs) d)
    with (store_frames fs (store_frame (frame_id g) (frame_body g) d)).
  rewrite IH; [|done|intros h Hh; apply Hne; by right].
  rewrite get_field_store_frame by apply Hg.
  rewrite bool_decide_eq_false_2; [done|]. apply Hne. by left.
Qed.

(** The last frame carrying a field's identifier decides the field. *)
Lemma get_field_store_last (k : Field) (pre post : list Frame) (f : Frame)
    (d : TagData) :
  Forall wf_frame (pre ++ f :: post) ->
  frame_id f = field_id k ->
  (forall g, g ∈ post -> frame_id g <> field_id k) ->
  get_field k (store_frames (pre ++ f :: post) d) = Some (strdup (frame_body f)).
Proof.
  intros Hwf Hid Hne.
  apply Forall_app in Hwf as [_ Hwf]. inversion Hwf as [|? ? Hf Hpost]; subst.
  rewrite store_frames_app.
  change (store_frames (f :: post) (store_frames pre d))
    with (store_frames post
            (store_frame (frame_id f) (frame_body f) (store_frames pre d))).
  rewrite get_field_store_others by done.
  rewrite get_field_store_frame by apply Hf.
  by rewrite bool_decide_eq_true_2.
Qed.

(** *** Every tag that is read is a sequence of well-formed frames *)

Lemma lor_shifted (a b k : Z) :
  (0 <= k)%Z -> (0 <= b < 2 ^ k)%Z -> Z.lor (a * 2 ^ k) b = (a * 2 ^ k + b)%Z.
Proof.
  intros Hk Hb. rewrite <- Z.add_lor_land.
  assert (Z.land (a * 2 ^ k) b = 0%Z) as ->; [|lia].
  apply Z.bits_inj'. intros i Hi.
  rewrite Z.land_spec, Z.bits_0, <- Z.shiftl_mul_pow2 by done.
  destruct (Z.lt_ge_cases i k).
  - by rewrite Z.shiftl_spec_low.
  - rewrite <- (Z.mod_small b (2 ^ k)) by done.
    rewrite Z.mod_pow2_bits_high by lia. apply andb_false_r.
Qed.

Lemma byte_val_range (a : ascii) : (0 <= byte_val a < 256)%Z.
Proof.
  unfold byte_val. pose proof (N_ascii_bounded a). lia.
Qed.

Lemma byte_of_byte_val (a : ascii) : byte_of (byte_val a) = a.
Proof.
  unfold byte_of. pose proof (byte_val_range a).
  rewrite Z.mod_small by done. unfold byte_val.
  rewrite N2Z.id. apply ascii_N_embedding.
Qed.

Lemma frame_size_range (sz : list ascii) :
  (- 2 ^ 31 <= frame_size sz < 2 ^ 31)%Z.
Proof.
  unfold frame_size, int_wrap.
  match goal with |- context [(?u mod 2 ^ 32)%Z] =>
    pose proof (Z.mod_pos_bound u (2 ^ 32)) end. lia.
Qed.

(** A non-negative size read from four bytes is written back as the same
    four bytes. *)
Lemma be32_frame_size (sz : list ascii) :
  length sz = 4%nat -> (0 <= frame_size sz)%Z -> be32 (frame_size sz) = sz.
Proof.
  intros Hlen.
  destruct sz as [|a0 [|a1 [|a2 [|a3 [|? ?]]]]]; try discriminate.
  unfold frame_size, at_index. cbn [nth].
  pose proof (byte_val_range a0). pose proof (byte_val_range a1).
  pose proof (byte_val_range a2). pose proof (byte_val_range a3).
  rewrite !Z.shiftl_mul_pow2 by lia.
  rewrite (lor_shifted (byte_val a0) _ 24) by lia.
  replace (byte_val a0 * 2 ^ 24 + byte_val a1 * 2 ^ 16)%Z
    with ((byte_val a0 * 2 ^ 8 + byte_val a1) * 2 ^ 16)%Z by lia.
  rewrite (lor_shifted _ _ 16) by lia.
  replace ((byte_val a0 * 2 ^ 8 + byte_val a1) * 2 ^ 16 + byte_val a2 * 2 ^ 8)%Z
    with (((byte_val a0 * 2 ^ 8 + byte_val a1) * 2 ^ 8 + byte_val a2) * 2 ^ 8)%Z
    by lia.
  rewrite (lor_shifted _ _ 8) by lia.
  set (u := ((((byte_val a0 * 2 ^ 8 + byte_val a1) * 2 ^ 8 + byte_val a2)
              * 2 ^ 8) + byte_val a3)%Z).
  assert (0 <= u < 2 ^ 32)%Z as Hu by (unfold u; lia).
  unfold int_wrap. intros Hpos.
  assert ((u + 2 ^ 31) mod 2 ^ 32 - 2 ^ 31 = u)%Z as ->.
  { destruct (Z.lt_ge_cases u (2 ^ 31)).
    - rewrite Z.mod_small; lia.
    - replace (u + 2 ^ 31)%Z with (u - 2 ^ 31 + 1 * 2 ^ 32)%Z in Hpos by lia.
      rewrite Z.mod_add, Z.mod_small in Hpos; lia. }
  unfold be32.
  rewrite <- (byte_of_byte_val a0), <- (byte_of_byte_val a1),
    <- (byte_of_byte_val a2), <- (byte_of_byte_val a3).
  rewrite <- (byte_of_mod (u / 2 ^ 24)), <- (byte_of_mod (u / 2 ^ 16)),
    <- (byte_of_mod (u / 2 ^ 8)), <- (byte_of_mod u).
  assert ((u / 2 ^ 24) mod 256 = byte_val a0)%Z as ->
    by (unfold u; Z.div_mod_to_equations; lia).
  assert ((u / 2 ^ 16) mod 256 = byte_val a1)%Z as ->
    by (unfold u; Z.div_mod_to_equations; lia).
  assert ((u / 2 ^ 8) mod 256 = byte_val a2)%Z as ->
    by (unfold u; Z.div_mod_to_equations; lia).
  assert (u mod 256 = byte_val a3)%Z as ->
    by (unfold u; Z.div_mod_to_equations; lia).
  done.
Qed.

(** What the loop takes as a frame is a well-formed frame, on a file whose
    size fits a [long]. *)
Lemma takes_frame_wf (tagEnd : Z) (pos : nat) (c id body : list ascii) :
  (Z.of_nat (length c) < 2 ^ 63)%Z ->
  takes_frame tagEnd pos c id body ->
  exists f rest,
    wf_frame f /\ frame_id f = id /\ frame_body f = body /\
    drop pos c = frame_bytes f ++ rest.
Proof.
  intros Hbig (Hlt & Hlen & Hnz & -> & Hm & -> & Hb).
  set (t := drop pos c) in *.
  set (n := frame_size (take 4 (drop 4 t))) in *.
  pose proof (frame_size_range (take 4 (drop 4 t))) as Hn. fold n in Hn.
  assert (Z.of_nat (length t) < 2 ^ 63)%Z as Ht.
  { unfold t. rewrite length_drop. lia. }
  assert (0 <= n < INT_MAX)%Z as Hn'.
  { unfold INT_MAX. unfold malloc, size_t_of_int, int_wrap in Hm.
    apply Z.ltb_lt in Hm.
    rewrite length_take, length_drop in Hb. unfold size_t_of_int in Hb.
    Z.div_mod_to_equations. lia. }
  unfold size_t_of_int in *. rewrite Z.mod_small in * by (unfold INT_MAX in *; lia).
  exists (mkFrame (take 4 t) (take 2 (drop 8 t)) (take (Z.to_nat n) (drop 10 t))),
    (drop (10 + Z.to_nat n) t).
  assert (length (take 4 (drop 4 t)) = 4%nat) as Hsz.
  { rewrite length_take, length_drop. lia. }
  repeat split; cbn [frame_id frame_flags frame_body].
  - rewrite length_take. lia.
  - unfold at_index in *. by destruct t.
  - rewrite length_take, length_drop. lia.
  - lia.
  - unfold frame_bytes. cbn [frame_id frame_flags frame_body].
    rewrite Hb.
    assert (be32 n = take 4 (drop 4 t)) as ->
      by (apply be32_frame_size; [done|lia]).
    rewrite <- !app_assoc.
    rewrite <- (drop_drop t (Z.to_nat n) 10), take_drop.
    change 10%nat with (8 + 2)%nat.
    rewrite <- (drop_drop t 2 8), take_drop.
    change 8%nat with (4 + 4)%nat.
    rewrite <- (drop_drop t 4 4), take_drop.
    by rewrite take_drop.
Qed.

Lemma stops_dec (tagEnd : Z) (pos : nat) (c : list ascii) :
  stops tagEnd (Z.of_nat pos) (drop pos c) \/
  exists id body, takes_frame tagEnd pos c id body.
Proof.
  unfold stops, takes_frame. cbv zeta.
  destruct (Z.lt_ge_cases (Z.of_nat pos) tagEnd); [|by left; left].
  destruct (Nat.le_gt_cases 10 (length (drop pos c))); [|by left; right; left].
  destruct (decide (at_index (drop pos c) 0 = NUL));
    [by left; right; right; left|].
  destruct (malloc _) eqn:Hm; [|by left; right; right; right; left].
  match goal with |- context [(_ < ?s)%Z] =>
    destruct (Z.lt_ge_cases (Z.of_nat (length (drop 10 (drop pos c)))) s)
  end; [by left; right; right; right; right|].
  right. eexists _, _. repeat split; try done.
  pose proof (size_t_of_int_nonneg
                (frame_size (take 4 (drop 4 (drop pos c))))).
  rewrite length_take. lia.
Qed.

(** From any offset of a file the bytes split into the frames the loop
    takes and the rest, at which it stops. *)
Lemma frames_from (tagEnd : Z) (c : list ascii) (fuel : nat) :
  (Z.of_nat (length c) < 2 ^ 63)%Z ->
  forall pos, (length (drop pos c) < fuel)%nat ->
  exists fs tail,
    drop pos c = frames_bytes fs ++ tail /\
    frames_fit tagEnd (Z.of_nat pos) fs /\
    stops tagEnd (Z.of_nat pos + Z.of_nat (length (frames_bytes fs))) tail.
Proof.
  intros Hbig. induction fuel as [|fuel IH]; intros pos Hfuel; [lia|].
  destruct (stops_dec tagEnd pos c) as [Hstop|(id & body & Htakes)].
  - exists [], (drop pos c). split; [done|]. split; [done|].
    simpl. by rewrite Z.add_0_r.
  - destruct (takes_frame_wf _ _ _ _ _ Hbig Htakes)
      as (f & rest & Hwf & _ & _ & Hd).
    pose proof (drop_split _ _ _ _ Hd) as Hrest.
    pose proof (length_frame_bytes f Hwf) as Hlen.
    destruct (IH (pos + length (frame_bytes f))%nat) as (fs & tail & Hd' & Hfit & Hstop).
    { rewrite length_drop in *. destruct Htakes as (_ & Hten & _).
      rewrite length_drop in Hten. lia. }
    exists (f :: fs), tail. rewrite frames_bytes_cons, <- app_assoc.
    split; [|split; [split; [|split]|]].
    + rewrite Hd. f_equal. by rewrite <- Hrest.
    + done.
    + by destruct Htakes.
    + by rewrite Nat2Z.inj_add in Hfit.
    + rewrite length_app, Nat2Z.inj_add, Z.add_assoc.
      by rewrite Nat2Z.inj_add in Hstop.
Qed.

(** Whenever [read_id3_tags] returns a record, the file is a tag in the
    sense of [holds_tag], and the record is the frames stored in order. *)
Lemma read_id3_tags_holds_tag (path : string) (w : World) (c : list ascii)
    (d : TagData) :
  files w !! path = Some c -> (Z.of_nat (length c) < 2 ^ 63)%Z ->
  fst (read_id3_tags path w) = Some d ->
  exists hdr fs tail,
    holds_tag path w hdr fs tail /\ d = store_frames fs (initial_tag hdr).
Proof.
  intros Hc Hbig Hsome.
  destruct (readable_or_not path w)
    as [Hno|(c' & Hck & Hc' & Hd & Hlen & Hmagic)].
  { by rewrite (read_id3_tags_fails _ _ Hno) in Hsome. }
  rewrite Hc in Hc'. injection Hc' as <-.
  destruct (frames_from (10 + tag_size (take 10 c)) c (S (length c)) Hbig 10)
    as (fs & tail & Hd' & Hfit & Hstop).
  { rewrite length_drop. lia. }
  assert (holds_tag path w (take 10 c) fs tail) as Htag.
  { repeat split; try done.
    - by rewrite <- Hd', take_drop.
    - rewrite length_take. lia.
    - by rewrite take_take. }
  exists (take 10 c), fs, tail. split; [done|].
  destruct (read_id3_tags_frames _ _ _ _ _ Htag) as [Hr _].
  congruence.
Qed.

(** *** Runs of the writer *)

Lemma add_io_upd (F : gmap string (list ascii)) (cs cs' : list IoCall) (w : World) :
  add_io cs' (upd F cs w) = upd F (cs ++ cs') w.
Proof. unfold upd, set_files, add_io; simpl. by rewrite <- app_assoc. Qed.

Lemma set_files_upd (F F' : gmap string (list ascii)) (cs : list IoCall) (w : World) :
  set_files F' (upd F cs w) = upd F' cs w.
Proof. reflexivity. Qed.

(** Writing at the end of a file appends. *)
Lemma fwrite_append (data c : list ascii) (p : string)
    (F : gmap string (list ascii)) (cs : list IoCall) (w : World) :
  fwrite data (mkFILE p (length c)) (upd (<[p := c]> F) cs w) =
  (mkFILE p (length (c ++ data)),
   upd (<[p := c ++ data]> F) (cs ++ [Fwrite p data]) w).
Proof.
  unfold fwrite, contents. cbn [f_path f_pos files upd set_files].
  rewrite lookup_insert_eq. cbn [default from_option id].
  rewrite resize_all, drop_ge, app_nil_r by lia.
  rewrite insert_insert_eq, add_io_upd, set_files_upd.
  by rewrite length_app.
Qed.

Lemma write_frame_run (id : list ascii) (content : option (list ascii))
    (c : list ascii) (F : gmap string (list ascii)) (cs : list IoCall) (w : World) :
  exists cs',
    write_frame (mkFILE temp_name (length c)) id content
      (upd (<[temp_name := c]> F) cs w) =
    (mkFILE temp_name (length (c ++ written id content)),
     upd (<[temp_name := c ++ written id content]> F) cs' w).
Proof.
  destruct content as [v|]; cbn [write_frame written].
  - rewrite size_bytes_be32.
    erewrite bind_run by apply fwrite_append.
    erewrite bind_run by apply fwrite_append.
    erewrite bind_run by apply fwrite_append.
    rewrite fwrite_append. eexists. by rewrite <- !app_assoc.
  - exists cs. by rewrite app_nil_r.
Qed.

Lemma written_emitted (id v : list ascii) :
  length id = 4%nat -> c_string v -> written id (Some v) = emitted id (Some v).
Proof.
  intros Hid [Hnul Hlen]. unfold written, emitted, frame_bytes, strlen; simpl.
  unfold INT_MAX in Hlen.
  rewrite strdup_c_string by done.
  rewrite int_wrap_small by lia. unfold size_t_of_int.
  rewrite Z.mod_small by lia. rewrite Nat2Z.id, firstn_all.
  by rewrite take_ge by lia.
Qed.

Lemma written_frames_emitted (d : TagData) :
  wf_tag d -> written_frames d = emitted_frames d.
Proof.
  intros Hwf. unfold written_frames, emitted_frames.
  assert (forall k, written (field_id k) (get_field k d)
                    = emitted (field_id k) (get_field k d)) as H.
  { intros k. destruct (get_field k d) as [v|] eqn:E; [|done].
    apply written_emitted; [by destruct k|]. by apply (Hwf k). }
  generalize (H Title), (H Artist), (H Album), (H Year), (H Comment), (H Genre).
  cbn [field_id get_field]. by intros -> -> -> -> -> ->.
Qed.

(** The copy loop appends what is left of the original. *)
Lemma copy_rest_run (path : string) (orig : list ascii)
    (F : gmap string (list ascii)) (w : World) (fuel : nat) :
  forall (pos : nat) (c : list ascii) (cs : list IoCall),
  F !! path = Some orig -> path <> temp_name ->
  (length (drop pos orig) < fuel)%nat ->
  exists pos' cs',
    copy_rest fuel (mkFILE path pos) (mkFILE temp_name (length c))
      (upd (<[temp_name := c]> F) cs w) =
    ((mkFILE path pos', mkFILE temp_name (length (c ++ drop pos orig))),
     upd (<[temp_name := c ++ drop pos orig]> F) cs' w).
Proof.
  induction fuel as [|fuel IH]; intros pos c cs Hc Hne Hfuel; [lia|].
  cbn [copy_rest].
  assert (files (upd (<[temp_name := c]> F) cs w) !! path = Some orig) as Hc'.
  { cbn [upd set_files files]. by rewrite lookup_insert_ne. }
  erewrite bind_run by (apply fread_run; [exact Hc'|lia]).
  cbv beta iota. rewrite add_io_upd.
  set (got := take (Z.to_nat 1024) (drop pos orig)).
  destruct (Nat.ltb_spec 0 (length got)) as [Hgot|Hgot].
  - erewrite bind_run by apply fwrite_append.
    assert (length (drop (pos + length got) orig) < fuel)%nat as Hfuel'.
    { assert (length got <= length (drop pos orig))%nat
        by (unfold got; rewrite length_take; lia).
      rewrite length_drop in *. lia. }
    destruct (IH (pos + length got)%nat (c ++ got) (cs ++ [Fread path 1024]
               ++ [Fwrite temp_name got]) Hc Hne Hfuel') as (pos' & cs' & Hrun).
    rewrite <- app_assoc. rewrite Hrun.
    assert (got ++ drop (pos + length got) orig = drop pos orig) as Hjoin.
    { rewrite <- drop_drop. unfold got.
      rewrite length_take.
      destruct (Nat.le_gt_cases (Z.to_nat 1024) (length (drop pos orig))).
      - rewrite Nat.min_l by done. apply take_drop.
      - rewrite Nat.min_r by lia. rewrite take_ge, drop_all by lia.
        by rewrite app_nil_r. }
    rewrite <- !app_assoc, Hjoin. by eexists _, _.
  - assert (drop pos orig = []) as ->.
    { unfold got in Hgot. rewrite length_take in Hgot.
      apply nil_length_inv. lia. }
    rewrite app_nil_r. by eexists _, _.
Qed.

Lemma fopen_wb (path : string) (w : World) :
  deny_open w path WBplus = false ->
  fopen path WBplus w =
  (Some (mkFILE path 0), upd (<[path := []]> (files w)) [Fopen path WBplus] w).
Proof. intros H. unfold fopen. by rewrite H. Qed.

Lemma upd_add_io (F : gmap string (list ascii)) (cs0 cs : list IoCall) (w : World) :
  upd F cs (add_io cs0 w) = upd F (cs0 ++ cs) w.
Proof. unfold upd, set_files, add_io; simpl. by rewrite <- app_assoc. Qed.

Lemma remove_run (path : string) (F : gmap string (list ascii))
    (cs : list IoCall) (w : World) :
  remove path (upd F cs w) =
  if deny_remove w path then ((-1)%Z, upd F (cs ++ [Remove path]) w)
  else match F !! path with
       | Some _ => (0%Z, upd (delete path F) (cs ++ [Remove path]) w)
       | None => ((-1)%Z, upd F (cs ++ [Remove path]) w)
       end.
Proof.
  unfold remove. cbn [upd set_files add_io deny_remove files].
  destruct (deny_remove w path); [by rewrite <- add_io_upd|].
  destruct (F !! path); by rewrite <- add_io_upd.
Qed.

Lemma rename_run (src dst : string) (F : gmap string (list ascii))
    (cs : list IoCall) (w : World) :
  rename src dst (upd F cs w) =
  if deny_rename w src dst then ((-1)%Z, upd F (cs ++ [Rename src dst]) w)
  else match F !! src with
       | Some c => (0%Z, upd (<[dst := c]> (delete src F))
                           (cs ++ [Rename src dst]) w)
       | None => ((-1)%Z, upd F (cs ++ [Rename src dst]) w)
       end.
Proof.
  unfold rename. cbn [upd set_files add_io deny_rename files].
  destruct (deny_rename w src dst); [by rewrite <- add_io_upd|].
  destruct (F !! src); by rewrite <- add_io_upd.
Qed.

Ltac run_write_frame :=
  match goal with
  |- context [bind (write_frame (mkFILE temp_name (length ?c)) ?id ?content) _
                (upd (<[temp_name := ?c]> ?F) ?cs ?w)] =>
      let cs' := fresh "cs" in
      let R := fresh "R" in
      destruct (write_frame_run id content c F cs w) as (cs' & R);
      erewrite bind_run by exact R; clear R
  end.

(** *** Outcomes of [write_id3_tags] *)

Section WriterRun.

(** [write_id3_tags path data] runs in the world [w], where the name passes
    the validator, the file holds [orig], both files open, and the ten
    bytes of the header are there to be read. *)
Variables (path : string) (data : TagData) (w : World) (orig : list ascii).
Hypothesis Hck : check_id3_tag_presence path = true.
Hypothesis Hc : files w !! path = Some orig.
Hypothesis Hd : deny_open w path RB = false.
Hypothesis Hdt : deny_open w temp_name WBplus = false.
Hypothesis Hne : path <> temp_name.
Hypothesis Hlen : (10 <= length orig)%nat.

Lemma write_id3_tags_copies :
  exists cs,
    write_id3_tags path data w =
    replace_original path
      (upd (<[temp_name := rewritten orig data]> (files w)) cs w).
Proof.
  unfold write_id3_tags.
  rewrite Hck. cbn [negb].
  erewrite bind_run by (rewrite fopen_rb, Hd, Hc; reflexivity).
  cbv beta iota.
  erewrite bind_run by (apply fopen_wb; exact Hdt).
  cbv beta iota. rewrite upd_add_io. cbn [app files add_io].
  assert (forall c cs, files (upd (<[temp_name := c]> (files w)) cs w) !! path
                       = Some orig) as Hc'.
  { intros c cs. cbn [upd set_files files]. by rewrite lookup_insert_ne. }
  erewrite bind_run by (apply fread_run; [apply Hc'|lia]).
  cbv beta iota. change (Z.to_nat 10) with 10%nat. rewrite drop_0.
  rewrite length_take, Nat.min_l by done. cbn [Nat.eqb negb].
  rewrite add_io_upd.
  erewrite bind_run by (apply (fwrite_append _ [])).
  cbn [app].
  do 6 run_write_frame.
  unfold bind at 1. unfold fseek. cbn [f_path]. rewrite add_io_upd.
  unfold bind at 1. unfold file_length, contents. cbn [f_path].
  rewrite Hc'. cbn [default from_option id].
  change (Z.to_nat 300) with 300%nat.
  match goal with |- context [upd (<[temp_name := ?c]> _) ?cs w] =>
    destruct (copy_rest_run path orig (files w) w (S (length orig)) 300 c cs
                Hc Hne) as (pos' & cs7 & R7)
  end.
  { rewrite length_drop. lia. }
  erewrite bind_run by exact R7. cbv beta iota.
  unfold bind at 1. unfold fclose. cbn [f_path]. rewrite add_io_upd.
  unfold bind at 1. rewrite add_io_upd.
  eexists. unfold replace_original, rewritten, written_frames.
  rewrite <- !app_assoc. reflexivity.
Qed.

(** The run of [write_id3_tags] once the header has been read. *)
Lemma write_id3_tags_outcome :
  exists cs,
    write_id3_tags path data w =
    if deny_remove w path then
      ((-1)%Z, add_err msg_remove
                 (upd (<[temp_name := rewritten orig data]> (files w)) cs w))
    else if deny_rename w temp_name path then
      ((-1)%Z, add_err msg_rename
                 (upd (delete path (<[temp_name := rewritten orig data]> (files w)))
                      cs w))
    else
      (0%Z, upd (<[path := rewritten orig data]>
                   (delete temp_name
                      (delete path
                         (<[temp_name := rewritten orig data]> (files w)))))
                cs w).
Proof.
  destruct write_id3_tags_copies as (cs & ->).
  unfold replace_original. unfold bind at 1. rewrite remove_run.
  destruct (deny_remove w path); [by eexists|].
  rewrite lookup_insert_ne, Hc by done. cbn [Z.eqb negb].
  unfold bind at 1. rewrite rename_run.
  destruct (deny_rename w temp_name path); [by eexists|].
  rewrite lookup_delete_ne, lookup_insert_eq by done.
  by eexists.
Qed.

End WriterRun.

Lemma header_read_other (path : string) (w : World) (orig : list ascii) :
  path <> temp_name -> files w !! path = Some orig ->
  header_read path w = take 10 orig.
Proof.
  intros Hne Hc. unfold header_read. by rewrite lookup_insert_ne, Hc.
Qed.

Lemma header_read_temp (w : World) : header_read temp_name w = [].
Proof. unfold header_read. by rewrite lookup_insert_eq. Qed.

(** The header read yields ten bytes when the file has them and is not the
    temporary file itself. *)
Lemma header_read_full (path : string) (w : World) :
  length (header_read path w) = 10%nat <->
  path <> temp_name /\
  exists orig, files w !! path = Some orig /\ (10 <= length orig)%nat.
Proof.
  split.
  - intros Hh.
    assert (path <> temp_name) as Hne.
    { intros ->. by rewrite header_read_temp in Hh. }
    split; [done|]. unfold header_read in Hh.
    rewrite lookup_insert_ne in Hh by done.
    destruct (files w !! path) as [orig|]; [|done].
    exists orig. split; [done|]. cbn [default from_option id] in Hh.
    rewrite length_take in Hh. lia.
  - intros (Hne & orig & Hc & Hlen).
    rewrite (header_read_other _ _ _ Hne Hc), length_take. lia.
Qed.

Lemma write_id3_tags_fails (path : string) (data : TagData) (w : World) :
  check_id3_tag_presence path = false \/ deny_open w path RB = true \/
  files w !! path = None \/ deny_open w temp_name WBplus = true \/
  length (header_read path w) <> 10%nat ->
  fst (write_id3_tags path data w) = (-1)%Z.
Proof.
  intros H. unfold write_id3_tags.
  destruct (check_id3_tag_presence path) eqn:Hck; cbn [negb]; [|done].
  unfold bind at 1. rewrite fopen_rb.
  destruct (deny_open w path RB) eqn:Hd; [done|].
  destruct (files w !! path) as [orig|] eqn:Hc; [|done].
  destruct (deny_open w temp_name WBplus) eqn:Hdt.
  { unfold bind at 1. unfold fopen. cbn [add_io deny_open]. by rewrite Hdt. }
  destruct H as [?|[?|[?|[?|H]]]]; [congruence..|].
  erewrite bind_run by (apply fopen_wb; exact Hdt).
  cbv beta iota. rewrite upd_add_io. cbn [app files add_io].
  destruct (<[temp_name := []]> (files w) !! path) as [c|] eqn:Hc'; cycle 1.
  { destruct (decide (path = temp_name)) as [->|Hne].
    - by rewrite lookup_insert_eq in Hc'.
    - by rewrite lookup_insert_ne, Hc in Hc'. }
  erewrite bind_run by (apply fread_run; [exact Hc'|lia]).
  cbv beta iota. change (Z.to_nat 10) with 10%nat. rewrite drop_0.
  unfold header_read in H. rewrite Hc' in H. cbn [default from_option id] in H.
  destruct (Nat.eqb_spec (length (take 10 c)) 10); [done|].
  done.
Qed.

(** Asked to rewrite its own temporary file, [write_id3_tags] truncates it
    when it creates the temporary file, finds no header and fails. *)
Lemma write_id3_tags_on_temp (data : TagData) (w : World) :
  fst (write_id3_tags temp_name data w) = (-1)%Z.
Proof.
  apply write_id3_tags_fails. do 4 right. by rewrite header_read_temp.
Qed.

(** [write_id3_tags] returns 0 exactly when the name passes the validator,
    both files open, the header read yields ten bytes, and neither [remove]
    nor [rename] is refused. *)
Lemma write_id3_tags_succeeds_iff (path : string) (data : TagData) (w : World) :
  fst (write_id3_tags path data w) = 0%Z <->
  check_id3_tag_presence path = true /\
  deny_open w path RB = false /\ is_Some (files w !! path) /\
  deny_open w temp_name WBplus = false /\
  length (header_read path w) = 10%nat /\
  deny_remove w path = false /\ deny_rename w temp_name path = false.
Proof.
  split.
  - intros Hok.
    destruct (check_id3_tag_presence path) eqn:Hck; cycle 1.
    { rewrite write_id3_tags_fails in Hok by (by left). done. }
    destruct (deny_open w path RB) eqn:Hd.
    { rewrite write_id3_tags_fails in Hok by (by right; left). done. }
    destruct (files w !! path) as [orig|] eqn:Hc; cycle 1.
    { rewrite write_id3_tags_fails in Hok by (by right; right; left). done. }
    destruct (deny_open w temp_name WBplus) eqn:Hdt.
    { rewrite write_id3_tags_fails in Hok by (by right; right; right; left). done. }
    destruct (decide (length (header_read path w) = 10%nat)) as [Hh|Hh]; cycle 1.
    { rewrite write_id3_tags_fails in Hok by (by right; right; right; right). done. }
    assert (path <> temp_name) as Hne.
    { intros ->. by rewrite header_read_temp in Hh. }
    rewrite (header_read_other _ _ _ Hne Hc), length_take in Hh.
    destruct (write_id3_tags_outcome path data w orig Hck Hc Hd Hdt Hne)
      as (cs & Hrun); [lia|].
    rewrite Hrun in Hok.
    destruct (deny_remove w path); [done|].
    destruct (deny_rename w temp_name path); [done|].
    repeat split; try done.
    rewrite (header_read_other _ _ orig) by done. rewrite length_take. lia.
  - intros (Hck & Hd & [orig Hc] & Hdt & Hh & Hrm & Hrn).
    assert (path <> temp_name) as Hne.
    { intros ->. by rewrite header_read_temp in Hh. }
    rewrite (header_read_other _ _ _ Hne Hc), length_take in Hh.
    destruct (write_id3_tags_outcome path data w orig Hck Hc Hd Hdt Hne)
      as (cs & Hrun); [lia|].
    by rewrite Hrun, Hrm, Hrn.
Qed.

(** On success the file at the path is the rewritten one. *)
Lemma write_id3_tags_result (path : string) (data : TagData) (w : World)
    (orig : list ascii) :
  files w !! path = Some orig ->
  fst (write_id3_tags path data w) = 0%Z ->
  let w' := snd (write_id3_tags path data w) in
  files w' !! path = Some (rewritten orig data) /\
  deny_open w' = deny_open w /\ stderr w' = stderr w /\
  path <> temp_name /\ (10 <= length orig)%nat.
Proof.
  intros Hc Hok.
  apply write_id3_tags_succeeds_iff in Hok
    as (Hck & Hd & _ & Hdt & Hh & Hrm & Hrn).
  assert (path <> temp_name) as Hne.
  { intros ->. by rewrite header_read_temp in Hh. }
  rewrite (header_read_other _ _ _ Hne Hc), length_take in Hh.
  destruct (write_id3_tags_outcome path data w orig Hck Hc Hd Hdt Hne)
    as (cs & Hrun); [lia|].
  rewrite Hrun, Hrm, Hrn. cbn [snd upd set_files add_io files deny_open stderr].
  rewrite lookup_insert_eq. repeat split; [done|lia].
Qed.

(** ** The properties *)

(** *** The scenario file of the specification *)

(** C3, as stated, fails: on the scenario file the version string read is
    "ID3v2.3.0", not "ID3v2.3". *)
Lemma scenario_version_counterexample :
  fst (read_id3_tags "song.mp3" (one_file "song.mp3" scenario_file))
  <> Some (scenario_record "ID3v2.3").
Proof. vm_compute. discriminate. Qed.

(** C3 (amended): on the scenario file (header "ID3" 3 0 0, size 35, a
    "TIT2" frame of length 5 holding "Hello", zero padding up to the declared
    size) read returns title "Hello", the other five fields absent, and the
    version "ID3v2.3.0", the major and the minor version byte both printed. *)
Theorem scenario_read (path : string) (w : World) :
  check_id3_tag_presence path = true ->
  files w !! path = Some scenario_file ->
  deny_open w path RB = false ->
  fst (read_id3_tags path w) = Some (scenario_record "ID3v2.3.0").
Proof.
  intros Hck Hc Hd.
  destruct (read_id3_tags_frames path w scenario_header
              [mkFrame (lit "TIT2") [NUL; NUL] (lit "Hello")] (repeat NUL 20))
    as [Hread _].
  - repeat split; try done. by right; right; left.
  - exact Hread.
Qed.

Lemma scenario_read_witness :
  fst (read_id3_tags "song.mp3" (one_file "song.mp3" scenario_file))
  = Some (scenario_record "ID3v2.3.0").
Proof. apply scenario_read; reflexivity. Defined.

(** C7: a file that opens, starts with "ID3" and declares size 0 reads
    successfully as a record with the version set and the six text fields
    absent. *)
Theorem empty_tag_read (path : string) (w : World) (c : list ascii) :
  check_id3_tag_presence path = true ->
  files w !! path = Some c -> deny_open w path RB = false ->
  (10 <= length c)%nat -> take 3 c = lit "ID3" ->
  tag_size (take 10 c) = 0%Z ->
  exists v,
    fst (read_id3_tags path w)
    = Some (mkTagData (Some v) None None None None None None) /\
    stderr (snd (read_id3_tags path w)) = stderr w.
Proof.
  intros Hck Hc Hd Hlen Hmagic Hsize.
  destruct (read_id3_tags_frames path w (take 10 c) [] (drop 10 c)) as [Hr Hq].
  - repeat split; try done.
    + change (frames_bytes [] ++ drop 10 c) with (drop 10 c).
      by rewrite take_drop.
    + rewrite length_take. lia.
    + by rewrite take_take.
    + left. rewrite Hsize. simpl. lia.
  - rewrite Hr, Hq. by eexists.
Qed.

Lemma empty_tag_read_witness :
  exists v,
    fst (read_id3_tags "song.mp3" (one_file "song.mp3" empty_tag_file))
    = Some (mkTagData (Some v) None None None None None None) /\
    stderr (snd (read_id3_tags "song.mp3" (one_file "song.mp3" empty_tag_file)))
    = stderr (one_file "song.mp3" empty_tag_file).
Proof.
  apply (empty_tag_read "song.mp3" _ empty_tag_file); try reflexivity.
  vm_compute. lia.
Defined.


Lemma skip_world_holds_tag :
  holds_tag "song.mp3" skip_world skip_header ([] ++ [skip_unknown; skip_title]) [].
Proof.
  repeat split; try done. left. vm_compute. discriminate.
Defined.


(** The field of the last frame carrying its identifier, as read. *)
Lemma last_field_read (path : string) (w : World) (hdr : list ascii)
    (pre post : list Frame) (f : Frame) (tail : list ascii) (k : Field) :
  holds_tag path w hdr (pre ++ f :: post) tail ->
  frame_id f = field_id k ->
  (forall g, g ∈ post -> frame_id g <> field_id k) ->
  exists d,
    fst (read_id3_tags path w) = Some d /\
    get_field k d = Some (strdup (frame_body f)).
Proof.
  intros Htag Hid Hlast.
  destruct (read_id3_tags_frames _ _ _ _ _ Htag) as [Hr _].
  destruct Htag as (_ & _ & _ & _ & _ & Hfit & _).
  pose proof (frames_fit_wf _ _ _ Hfit) as Hwf.
  eexists. split; [exact Hr|]. by apply get_field_store_last.
Qed.


Lemma twice_world_holds_tag :
  holds_tag "song.mp3" twice_world twice_header
    ([twice_first; twice_artist] ++ twice_last :: []) [].
Proof.
  repeat split; try done. left. vm_compute. discriminate.
Defined.



Lemma cut_world_holds_tag (after : string) :
  String.length after = 3%nat ->
  holds_tag "song.mp3" (cut_world after) cut_header
    ([] ++ mkFrame (field_id Title) [NUL; NUL] (lit "Hi" ++ NUL :: lit after)
        :: []) [].
Proof.
  intros Hlen.
  destruct after as [|a [|b [|c [|? ?]]]]; try discriminate.
  repeat split; try done. left. vm_compute. discriminate.
Defined.


(** C5: the validator accepts exactly the names ending in ".mp3"; on any
    other name read and write return their failure value after printing the
    "not an MP3 file" line and nothing else: the files are as before and no
    file call has been made. *)
Theorem validator_gate (filename : string) :
  (check_id3_tag_presence filename = true <->
   exists stem, filename = (stem ++ ".mp3")%string) /\
  (check_id3_tag_presence filename = false ->
   forall (w : World) (data : TagData),
     read_id3_tags filename w = (None, add_err msg_not_mp3 w) /\
     write_id3_tags filename data w = ((-1)%Z, add_err msg_not_mp3 w) /\
     io (add_err msg_not_mp3 w) = io w /\
     files (add_err msg_not_mp3 w) = files w).
Proof.
  split; [apply check_id3_tag_presence_spec|].
  intros Hck w data. unfold read_id3_tags, write_id3_tags. by rewrite Hck.
Qed.

Lemma validator_gate_witness :
  let w := one_file "notes.txt" (lit "ID3 in a text file") in
  read_id3_tags "notes.txt" w = (None, add_err msg_not_mp3 w) /\
  write_id3_tags "notes.txt" create_tag_data w = ((-1)%Z, add_err msg_not_mp3 w) /\
  io (add_err msg_not_mp3 w) = io w /\
  files (add_err msg_not_mp3 w) = files w.
Proof.
  intros w. apply (proj2 (validator_gate "notes.txt")). reflexivity.
Defined.

Lemma no_nul_check (v : list ascii) :
  forallb (fun c => negb (Ascii.eqb c NUL)) v = true -> NUL ∉ v.
Proof.
  induction v as [|c v IH]; simpl; [by intros _ ?%elem_of_nil|].
  destruct (Ascii.eqb_spec c NUL) as [|Hc]; [done|]. simpl.
  intros H [?|?]%elem_of_cons; [congruence|by apply IH].
Defined.

Lemma dummy_tags_wf : wf_tag dummy_tags.
Proof.
  intros k v H. destruct k; injection H as <-;
    (split; [by apply no_nul_check | vm_compute; discriminate]).
Defined.

(** C2: on success the file is the original's first ten bytes, then one
    frame (identifier, big-endian length, two zero bytes, the value) for
    each field present, in the order title, artist, album, year, comment,
    genre, then the original from offset 300 on. *)
Theorem written_file_layout (path : string) (data : TagData) (w : World)
    (orig : list ascii) :
  files w !! path = Some orig -> (10 <= length orig)%nat ->
  wf_tag data ->
  fst (write_id3_tags path data w) = 0%Z ->
  files (snd (write_id3_tags path data w)) !! path
  = Some (take 10 orig ++ emitted_frames data ++ drop 300 orig).
Proof.
  intros Hc _ Hwf Hok.
  destruct (write_id3_tags_result path data w orig Hc Hok) as (Hnew & _).
  rewrite Hnew. unfold rewritten. by rewrite written_frames_emitted.
Qed.

Lemma written_file_layout_witness :
  let w := one_file "song.mp3" scenario_file in
  files (snd (write_id3_tags "song.mp3" dummy_tags w)) !! "song.mp3"
  = Some (take 10 scenario_file ++ emitted_frames dummy_tags
          ++ drop 300 scenario_file).
Proof.
  intros w. apply written_file_layout.
  - reflexivity.
  - vm_compute. lia.
  - exact dummy_tags_wf.
  - vm_compute. reflexivity.
Defined.

(** C10: [write_id3_tags] succeeds exactly when the name ends in ".mp3",
    the file opens, the temporary file is created, the header read yields
    ten bytes and neither [remove] nor [rename] is refused; what the ten
    bytes are plays no part, and they are copied as they are.  The header
    read yields ten bytes when the file has them, unless the file is the
    writer's own temporary file, which creating it has emptied. *)
Theorem write_ignores_magic (path : string) (data : TagData) (w : World) :
  (fst (write_id3_tags path data w) = 0%Z <->
   check_id3_tag_presence path = true /\
   deny_open w path RB = false /\ is_Some (files w !! path) /\
   deny_open w temp_name WBplus = false /\
   length (header_read path w) = 10%nat /\
   deny_remove w path = false /\ deny_rename w temp_name path = false) /\
  (length (header_read path w) = 10%nat <->
   path <> temp_name /\
   exists orig, files w !! path = Some orig /\ (10 <= length orig)%nat) /\
  (fst (write_id3_tags path data w) = 0%Z ->
   exists orig, files w !! path = Some orig /\
     header_read path w = take 10 orig /\
     files (snd (write_id3_tags path data w)) !! path
     = Some (take 10 orig ++ written_frames data ++ drop 300 orig)).
Proof.
  split; [apply write_id3_tags_succeeds_iff|].
  split; [apply header_read_full|].
  intros Hok.
  pose proof (proj1 (write_id3_tags_succeeds_iff _ _ _) Hok)
    as (_ & _ & [orig Hc] & _).
  destruct (write_id3_tags_result path data w orig Hc Hok)
    as (Hnew & _ & _ & Hne & _).
  exists orig. by rewrite (header_read_other _ _ orig).
Qed.

Lemma write_ignores_magic_witness :
  fst (write_id3_tags "song.mp3" dummy_tags (one_file "song.mp3" untagged_file))
  = 0%Z.
Proof.
  apply (proj1 (write_ignores_magic "song.mp3" dummy_tags
                  (one_file "song.mp3" untagged_file))).
  repeat split; try reflexivity. by eexists.
Defined.

(** *** Editing *)


Lemma not_field_name (tag : string) :
  tag ∉ field_names ->
  String.eqb tag "title" = false /\ String.eqb tag "artist" = false /\
  String.eqb tag "album" = false /\ String.eqb tag "year" = false /\
  String.eqb tag "comment" = false /\ String.eqb tag "genre" = false.
Proof.
  intros H. unfold field_names in H.
  repeat split; apply String.eqb_neq; intros ->; apply H; set_solver.
Qed.



(** *** Writing, then reading back *)


Lemma six_frames_fields (v1 v2 v3 v4 v5 v6 : list ascii) (d0 : TagData) :
  NUL ∉ v1 -> NUL ∉ v2 -> NUL ∉ v3 -> NUL ∉ v4 -> NUL ∉ v5 -> NUL ∉ v6 ->
  forall k,
    get_field k (store_frames (six_frames v1 v2 v3 v4 v5 v6) d0)
    = get_field k (mkTagData None (Some v1) (Some v2) (Some v3) (Some v4)
                     (Some v5) (Some v6)).
Proof.
  intros H1 H2 H3 H4 H5 H6 k.
  unfold six_frames, store_frames. cbn [fold_left frame_id frame_body].
  rewrite !get_field_store_frame by done.
  rewrite (strdup_c_string v1), (strdup_c_string v2), (strdup_c_string v3),
    (strdup_c_string v4), (strdup_c_string v5), (strdup_c_string v6) by done.
  by destruct k.
Qed.

Lemma frames_fit_app (tagEnd : Z) (fs gs : list Frame) :
  forall pos,
  frames_fit tagEnd pos fs ->
  frames_fit tagEnd (pos + Z.of_nat (length (frames_bytes fs))) gs ->
  frames_fit tagEnd pos (fs ++ gs).
Proof.
  induction fs as [|f fs IH]; intros pos Hfs Hgs.
  - simpl in Hgs. by rewrite Z.add_0_r in Hgs.
  - destruct Hfs as (Hwf & Hpos & Hfs).
    split; [done|]. split; [done|]. apply IH; [done|].
    rewrite frames_bytes_cons, length_app, Nat2Z.inj_add in Hgs.
    by rewrite <- Z.add_assoc.
Qed.



(** ** Further properties of the reader *)

(** *** The runs of [read_id3_tags] that fail *)

Lemma read_id3_tags_no_open (path : string) (w : World) :
  check_id3_tag_presence path = true ->
  deny_open w path RB = true \/ files w !! path = None ->
  read_id3_tags path w
  = (None, add_err msg_cannot_open (add_io [Fopen path RB] w)).
Proof.
  intros Hck H. unfold read_id3_tags. rewrite Hck. cbn [negb].
  unfold bind at 1. rewrite fopen_rb.
  destruct (deny_open w path RB); [done|].
  destruct H as [?|Hn]; [done|by rewrite Hn].
Qed.

Lemma read_id3_tags_short (path : string) (w : World) (c : list ascii) :
  check_id3_tag_presence path = true -> deny_open w path RB = false ->
  files w !! path = Some c -> (length c < 10)%nat ->
  read_id3_tags path w
  = (None, add_io [Fclose path]
             (add_err msg_header (add_io [Fopen path RB; Fread path 10] w))).
Proof.
  intros Hck Hd Hc Hlen. unfold read_id3_tags. rewrite Hck. cbn [negb].
  erewrite bind_run by (rewrite fopen_rb, Hd, Hc; reflexivity).
  cbv beta iota.
  erewrite bind_run by (apply fread_run; [exact Hc|lia]).
  cbv beta iota. change (Z.to_nat 10) with 10%nat. rewrite drop_0.
  rewrite length_take.
  destruct (Nat.eqb_spec (10 `min` length c) 10) as [?|_]; [lia|].
  cbn [negb]. by rewrite add_io_add_io.
Qed.

Lemma read_id3_tags_no_magic (path : string) (w : World) (c : list ascii) :
  check_id3_tag_presence path = true -> deny_open w path RB = false ->
  files w !! path = Some c -> (10 <= length c)%nat ->
  take 3 c <> lit "ID3" ->
  read_id3_tags path w
  = (None, add_io [Fclose path]
             (add_err msg_no_tag (add_io [Fopen path RB; Fread path 10] w))).
Proof.
  intros Hck Hd Hc Hlen Hmagic. unfold read_id3_tags. rewrite Hck. cbn [negb].
  erewrite bind_run by (rewrite fopen_rb, Hd, Hc; reflexivity).
  cbv beta iota.
  erewrite bind_run by (apply fread_run; [exact Hc|lia]).
  cbv beta iota. change (Z.to_nat 10) with 10%nat. rewrite drop_0.
  rewrite length_take, Nat.min_l by done. cbn [Nat.eqb negb].
  unfold memcmp. rewrite take_take. change (3 `min` 10)%nat with 3%nat.
  rewrite bool_decide_eq_false_2 by done. cbn [negb].
  by rewrite add_io_add_io.
Qed.

(** A failed [read_id3_tags] prints one line. *)
Lemma read_id3_tags_one_line (path : string) (w : World) :
  fst (read_id3_tags path w) = None ->
  exists line, stderr (snd (read_id3_tags path w)) = stderr w ++ [line].
Proof.
  intros Hnone.
  destruct (check_id3_tag_presence path) eqn:Hck; cycle 1.
  { exists msg_not_mp3. unfold read_id3_tags. by rewrite Hck. }
  destruct (deny_open w path RB) eqn:Hd.
  { exists msg_cannot_open. by rewrite read_id3_tags_no_open by auto. }
  destruct (files w !! path) as [c|] eqn:Hc; cycle 1.
  { exists msg_cannot_open. by rewrite read_id3_tags_no_open by auto. }
  destruct (Nat.le_gt_cases 10 (length c)) as [Hlen|Hlen]; cycle 1.
  { exists msg_header. by rewrite (read_id3_tags_short path w c). }
  destruct (decide (take 3 c = lit "ID3")) as [Hmagic|Hmagic]; cycle 1.
  { exists msg_no_tag. by rewrite (read_id3_tags_no_magic path w c). }
  destruct (read_id3_tags_tagged path w c Hck Hc Hd Hlen Hmagic)
    as (pos' & d & cs & _ & _ & Hrun).
  by rewrite Hrun in Hnone.
Qed.

Lemma read_id3_tags_some (path : string) (w : World) (d : TagData) :
  fst (read_id3_tags path w) = Some d ->
  check_id3_tag_presence path = true /\ deny_open w path RB = false /\
  exists c, files w !! path = Some c /\ (10 <= length c)%nat /\
            take 3 c = lit "ID3".
Proof.
  intros Hsome.
  destruct (readable_or_not path w) as [Hno|(c & Hck & Hc & Hd & Hlen & Hmagic)].
  - by rewrite (read_id3_tags_fails _ _ Hno) in Hsome.
  - split; [done|]. split; [done|]. by exists c.
Qed.

(** *** The version string *)

Lemma store_frame_version (id body : list ascii) (d : TagData) :
  version (store_frame id body d) = version d.
Proof.
  unfold store_frame.
  repeat match goal with |- context [strcmp ?a ?b] => destruct (strcmp a b) end;
    reflexivity.
Qed.

Lemma read_frames_version (tagEnd : Z) (path : string) (c : list ascii)
    (fuel : nat) :
  forall (pos : nat) (data : TagData) (w : World),
  files w !! path = Some c ->
  version (snd (fst (read_frames fuel tagEnd (mkFILE path pos) data w)))
  = version data.
Proof.
  induction fuel as [|fuel IH]; intros pos data w Hc; [done|].
  destruct (read_frames_round tagEnd path c pos data w Hc)
    as [(_ & pos' & cs & _ & Hrun)|(id & body & cs & _ & _ & Hrun)].
  - by rewrite Hrun.
  - rewrite Hrun, IH by done. apply store_frame_version.
Qed.

Lemma digit_not_nul (n : Z) : (0 <= n < 10)%Z -> digit n <> NUL.
Proof.
  intros Hn Heq. apply (f_equal byte_val) in Heq.
  unfold digit in Heq. rewrite byte_val_byte_of in Heq.
  change (byte_val NUL) with 0%Z in Heq.
  rewrite Z.mod_small in Heq by lia. lia.
Qed.

Lemma fmt_d_no_nul (n : Z) : (0 <= n < 1000)%Z -> NUL ∉ fmt_d n.
Proof.
  intros Hn. unfold fmt_d.
  destruct (n <? 10)%Z eqn:H1; [|destruct (n <? 100)%Z eqn:H2];
    rewrite ?Z.ltb_lt, ?Z.ltb_ge in *;
    repeat (apply not_elem_of_cons; split;
            [apply not_eq_sym, digit_not_nul; Z.div_mod_to_equations; lia|]);
    apply not_elem_of_nil.
Qed.

Lemma fmt_d_length (n : Z) : (1 <= length (fmt_d n) <= 3)%nat.
Proof.
  unfold fmt_d. destruct (n <? 10)%Z; [|destruct (n <? 100)%Z]; simpl; lia.
Qed.

Lemma not_elem_of_take_nul (n : nat) (v : list ascii) :
  NUL ∉ v -> NUL ∉ take n v.
Proof.
  intros Hv Hin. apply Hv. rewrite <- (take_drop n v).
  apply elem_of_app. by left.
Qed.

Lemma at_index_take (c : list ascii) (n i : nat) :
  (i < n)%nat -> at_index (take n c) i = at_index c i.
Proof.
  intros Hi. unfold at_index. revert n i Hi.
  induction c as [|a c IH]; intros n i Hi.
  - by rewrite take_nil.
  - destruct n as [|n]; [lia|]. destruct i as [|i]; [done|].
    simpl. apply IH. lia.
Qed.

(** The loop of [read_id3_tags] makes no call but [fread]s on its stream. *)
Lemma read_frames_freads (tagEnd : Z) (fuel : nat) :
  forall (fp : FILE) (data : TagData) (w : World),
  exists cs,
    snd (read_frames fuel tagEnd fp data w) = add_io cs w /\
    Forall (is_fread_of (f_path fp)) cs.
Proof.
  induction fuel as [|fuel IH]; intros fp data w.
  { exists []. by rewrite add_io_nil. }
  assert (forall n, is_fread_of (f_path fp) (Fread (f_path fp) n)) as Hf
    by (intros n; by exists n).
  cbn [read_frames].
  destruct (ftell fp <? tagEnd)%Z; [|exists []; by rewrite add_io_nil].
  unfold bind at 1. unfold fread at 1. cbv beta iota zeta.
  match goal with |- context [negb ?b] => destruct b end; cbn [negb];
    [|eexists; split; [reflexivity|by repeat constructor]].
  unfold bind at 1. unfold fread at 1. cbv beta iota zeta.
  match goal with |- context [negb ?b] => destruct b end; cbn [negb];
    [|eexists; split; [unfold ret; cbn [snd]; by rewrite add_io_add_io
                      |by repeat constructor]].
  unfold bind at 1. unfold fread at 1. cbv beta iota zeta.
  match goal with |- context [negb ?b] => destruct b end; cbn [negb];
    [|eexists; split; [unfold ret; cbn [snd]; by rewrite !add_io_add_io
                      |by repeat constructor]].
  match goal with |- context [Ascii.eqb ?a ?b] => destruct (Ascii.eqb a b) end;
    [eexists; split; [unfold ret; cbn [snd]; by rewrite !add_io_add_io
                     |by repeat constructor]|].
  match goal with |- context [negb ?b] => destruct b end; cbn [negb];
    [|eexists; split; [unfold ret; cbn [snd]; by rewrite !add_io_add_io
                      |by repeat constructor]].
  unfold bind at 1. unfold fread at 1. cbv beta iota zeta.
  match goal with |- context [negb ?b] => destruct b end; cbn [negb];
    [|eexists; split; [unfold ret; cbn [snd]; by rewrite !add_io_add_io
                      |by repeat constructor]].
  match goal with
  |- context [read_frames fuel tagEnd ?fp' ?d' ?w'] =>
      destruct (IH fp' d' w') as (cs & -> & Hcs)
  end.
  cbn [f_path] in Hcs. rewrite !add_io_add_io.
  eexists; split; [reflexivity|].
  rewrite !Forall_app. repeat split; try done; by repeat constructor.
Qed.

Lemma read_id3_tags_log (path : string) (w : World) (c : list ascii) :
  check_id3_tag_presence path = true ->
  files w !! path = Some c -> deny_open w path RB = false ->
  (10 <= length c)%nat -> take 3 c = lit "ID3" ->
  exists d cs,
    Forall (is_fread_of path) cs /\
    read_id3_tags path w =
    (Some d, add_io ([Fopen path RB; Fread path 10] ++ cs ++ [Fclose path]) w).
Proof.
  intros Hck Hc Hd Hlen Hmagic.
  destruct (read_id3_tags_tagged path w c Hck Hc Hd Hlen Hmagic)
    as (pos' & d & cs & _ & Hloop & Hrun).
  exists d, cs. split; [|done].
  destruct (read_frames_freads (Z.of_nat 10 + tag_size (take 10 c))
              (S (length c)) (mkFILE path 10) (initial_tag (take 10 c))
              (add_io [Fopen path RB; Fread path 10] w)) as (cs' & Hlog & Hcs').
  rewrite Hloop in Hlog. cbn [snd f_path] in Hlog, Hcs'.
  rewrite add_io_add_io in Hlog.
  apply (f_equal io) in Hlog. cbn [io add_io] in Hlog.
  apply app_inv_head in Hlog. apply app_inv_head in Hlog. by subst cs'.
Qed.




(** X3: on a file of ten bytes or more that does not start with "ID3",
    [read_id3_tags] returns NULL, prints the one line "Error: No ID3 tag
    found.", and its file calls are: open, read ten bytes, close.  No frame
    is looked at. *)
Theorem no_tag_found (path : string) (w : World) (c : list ascii) :
  check_id3_tag_presence path = true -> deny_open w path RB = false ->
  files w !! path = Some c -> (10 <= length c)%nat ->
  take 3 c <> lit "ID3" ->
  let r := read_id3_tags path w in
  fst r = None /\
  stderr (snd r) = stderr w ++ [msg_no_tag] /\
  io (snd r) = io w ++ [Fopen path RB; Fread path 10; Fclose path].
Proof.
  intros Hck Hd Hc Hlen Hmagic. cbv zeta.
  rewrite (read_id3_tags_no_magic path w c) by done.
  cbn [fst snd stderr io add_io add_err]. by rewrite <- app_assoc.
Qed.

Lemma no_tag_found_witness :
  let r := read_id3_tags "song.mp3" (one_file "song.mp3" untagged_file) in
  fst r = None /\
  stderr (snd r) = [] ++ [msg_no_tag] /\
  io (snd r) = [] ++ [Fopen "song.mp3" RB; Fread "song.mp3" 10; Fclose "song.mp3"].
Proof.
  apply (no_tag_found "song.mp3" (one_file "song.mp3" untagged_file) untagged_file).
  - reflexivity.
  - reflexivity.
  - reflexivity.
  - vm_compute. lia.
  - vm_compute. discriminate.
Defined.

(** X4: on a file shorter than ten bytes (an empty file included)
    [read_id3_tags] returns NULL, prints the one line "Error: Failed to read
    ID3 header." and closes the file it opened. *)
Theorem header_too_short (path : string) (w : World) (c : list ascii) :
  check_id3_tag_presence path = true -> deny_open w path RB = false ->
  files w !! path = Some c -> (length c < 10)%nat ->
  let r := read_id3_tags path w in
  fst r = None /\
  stderr (snd r) = stderr w ++ [msg_header] /\
  io (snd r) = io w ++ [Fopen path RB; Fread path 10; Fclose path].
Proof.
  intros Hck Hd Hc Hlen. cbv zeta.
  rewrite (read_id3_tags_short path w c) by done.
  cbn [fst snd stderr io add_io add_err]. by rewrite <- app_assoc.
Qed.

Lemma header_too_short_witness :
  let r := read_id3_tags "song.mp3" (one_file "song.mp3" (lit "ID3")) in
  fst r = None /\
  stderr (snd r) = [] ++ [msg_header] /\
  io (snd r) = [] ++ [Fopen "song.mp3" RB; Fread "song.mp3" 10; Fclose "song.mp3"].
Proof.
  apply (header_too_short "song.mp3" (one_file "song.mp3" (lit "ID3")) (lit "ID3")).
  - reflexivity.
  - reflexivity.
  - reflexivity.
  - vm_compute. lia.
Defined.

(** X5: when the name ends in ".mp3" but the file does not exist, or the
    system refuses to open it, [read_id3_tags] returns NULL and prints the
    one line "Error: Cannot open file for reading."; the failed [fopen] is
    the only file call, so nothing is closed. *)
Theorem cannot_open (path : string) (w : World) :
  check_id3_tag_presence path = true ->
  deny_open w path RB = true \/ files w !! path = None ->
  let r := read_id3_tags path w in
  fst r = None /\
  stderr (snd r) = stderr w ++ [msg_cannot_open] /\
  io (snd r) = io w ++ [Fopen path RB].
Proof.
  intros Hck H. cbv zeta. by rewrite read_id3_tags_no_open.
Qed.

Lemma cannot_open_witness :
  let r := read_id3_tags "other.mp3" (one_file "song.mp3" scenario_file) in
  fst r = None /\
  stderr (snd r) = [] ++ [msg_cannot_open] /\
  io (snd r) = [] ++ [Fopen "other.mp3" RB].
Proof.
  apply (cannot_open "other.mp3" (one_file "song.mp3" scenario_file)).
  - reflexivity.
  - right. reflexivity.
Defined.



(** *** The version string and the declared size *)

Lemma read_id3_tags_version (path : string) (w : World) (c : list ascii)
    (d : TagData) :
  files w !! path = Some c -> fst (read_id3_tags path w) = Some d ->
  (10 <= length c)%nat /\ version d = version (initial_tag (take 10 c)).
Proof.
  intros Hc Hsome.
  destruct (read_id3_tags_some path w d Hsome)
    as (Hck & Hd & c' & Hc' & Hlen & Hmagic).
  assert (c' = c) as -> by congruence.
  split; [done|].
  destruct (read_id3_tags_tagged path w c Hck Hc Hd Hlen Hmagic)
    as (pos' & d' & cs & _ & Hloop & Hrun).
  rewrite Hrun in Hsome. injection Hsome as ->.
  pose proof (read_frames_version (Z.of_nat 10 + tag_size (take 10 c)) path c
                (S (length c)) 10 (initial_tag (take 10 c))
                (add_io [Fopen path RB; Fread path 10] w) Hc) as Hv.
  by rewrite Hloop in Hv.
Qed.

Lemma fmt_d_digit (n : Z) : (n < 10)%Z -> fmt_d n = [digit n].
Proof. intros Hn. unfold fmt_d. by rewrite (proj2 (Z.ltb_lt n 10)). Qed.



Lemma land_127 (z : Z) : Z.land z 127 = (z mod 128)%Z.
Proof. change 127%Z with (Z.ones 7). by rewrite Z.land_ones by lia. Qed.

(** X8: the size [read_id3_tags] takes from bytes 6 to 9 of the header is
    the number whose four base-128 digits are the low seven bits of those
    bytes; the top bit of each byte is ignored, and the size is never
    negative and always below 2^28. *)
Theorem tag_size_sync_safe (header : list ascii) :
  let b i := byte_val (at_index header i) in
  tag_size header
  = ((b 6%nat mod 128) * 2 ^ 21 + (b 7%nat mod 128) * 2 ^ 14
     + (b 8%nat mod 128) * 2 ^ 7 + b 9%nat mod 128)%Z /\
  (0 <= tag_size header < 2 ^ 28)%Z.
Proof.
  cbv zeta. unfold tag_size. rewrite !land_127, !Z.shiftl_mul_pow2 by lia.
  set (b6 := (byte_val (at_index header 6) mod 128)%Z).
  set (b7 := (byte_val (at_index header 7) mod 128)%Z).
  set (b8 := (byte_val (at_index header 8) mod 128)%Z).
  set (b9 := (byte_val (at_index header 9) mod 128)%Z).
  assert (0 <= b6 < 128)%Z by (apply Z.mod_pos_bound; lia).
  assert (0 <= b7 < 128)%Z by (apply Z.mod_pos_bound; lia).
  assert (0 <= b8 < 128)%Z by (apply Z.mod_pos_bound; lia).
  assert (0 <= b9 < 128)%Z by (apply Z.mod_pos_bound; lia).
  rewrite (lor_shifted b6 (b7 * 2 ^ 14) 21) by lia.
  replace (b6 * 2 ^ 21 + b7 * 2 ^ 14)%Z with ((b6 * 2 ^ 7 + b7) * 2 ^ 14)%Z by lia.
  rewrite (lor_shifted _ (b8 * 2 ^ 7) 14) by lia.
  replace ((b6 * 2 ^ 7 + b7) * 2 ^ 14 + b8 * 2 ^ 7)%Z
    with (((b6 * 2 ^ 7 + b7) * 2 ^ 7 + b8) * 2 ^ 7)%Z by lia.
  rewrite (lor_shifted _ b9 7) by lia.
  lia.
Qed.

(** *** What a record read can hold *)

Lemma strdup_length (v : list ascii) : (length (strdup v) <= length v)%nat.
Proof.
  induction v as [|a v IH]; [done|]. simpl.
  destruct (Ascii.eqb a NUL); simpl; lia.
Qed.

Lemma frame_bytes_within (f : Frame) (fs : list Frame) :
  f ∈ fs -> (length (frame_body f) <= length (frames_bytes fs))%nat.
Proof.
  induction fs as [|g fs IH]; intros Hin; [by apply elem_of_nil in Hin|].
  rewrite frames_bytes_cons, length_app.
  apply elem_of_cons in Hin as [->|Hin].
  - unfold frame_bytes. rewrite !length_app. lia.
  - specialize (IH Hin). lia.
Qed.

Lemma get_field_store_frames (k : Field) (fs : list Frame) :
  forall d v, Forall wf_frame fs ->
  get_field k (store_frames fs d) = Some v ->
  get_field k d = Some v \/
  exists f, f ∈ fs /\ frame_id f = field_id k /\ v = strdup (frame_body f).
Proof.
  induction fs as [|f fs IH] using rev_ind; intros d v Hwf Hv; [by left|].
  apply Forall_app in Hwf as (Hwf & Hf). apply Forall_cons in Hf as (Hf & _).
  rewrite store_frames_app in Hv.
  change (store_frames [f] (store_frames fs d))
    with (store_frame (frame_id f) (frame_body f) (store_frames fs d)) in Hv.
  rewrite get_field_store_frame in Hv by apply Hf.
  case_bool_decide as Hid.
  - right. exists f. injection Hv as <-. split; [|done].
    apply elem_of_app. right. by apply list_elem_of_singleton.
  - destruct (IH d v Hwf Hv) as [?|(g & Hg & ? & ?)]; [by left|].
    right. exists g. split; [|done]. apply elem_of_app. by left.
Qed.



(** The text fields of a record read are C strings. *)
Lemma read_id3_tags_wf_tag (path : string) (w : World) (c : list ascii)
    (d : TagData) :
  files w !! path = Some c -> (Z.of_nat (length c) < 2 ^ 63)%Z ->
  fst (read_id3_tags path w) = Some d -> wf_tag d.
Proof.
  intros Hc Hsize Hsome k v Hv.
  destruct (read_id3_tags_holds_tag path w c d Hc Hsize Hsome)
    as (hdr & fs & tail & (_ & _ & _ & _ & _ & Hfit & _) & ->).
  pose proof (frames_fit_wf _ _ _ Hfit) as Hwf.
  destruct (get_field_store_frames k fs _ v Hwf Hv) as [Hinit|(f & Hin & _ & ->)].
  { by destruct k. }
  split; [apply strdup_no_nul|].
  pose proof (strdup_length (frame_body f)).
  pose proof (proj1 (Forall_forall _ _) Hwf f Hin) as (_ & _ & _ & Hbody).
  lia.
Qed.



(** *** Where the loop stops *)

Lemma stops_cut_frame (tagEnd pos : Z) (f : Frame) (m : nat) :
  wf_frame f -> (m < length (frame_bytes f))%nat ->
  stops tagEnd pos (take m (frame_bytes f)).
Proof.
  intros Hwf Hm. pose proof Hwf as (Hid & _ & Hfl & Hbody).
  rewrite length_frame_bytes in Hm by done.
  destruct (Nat.lt_ge_cases m 10) as [Hlt|Hge].
  { right; left. rewrite length_take. lia. }
  right; right; right. cbv zeta.
  assert (take m (frame_bytes f)
          = frame_id f ++ be32 (Z.of_nat (length (frame_body f)))
            ++ frame_flags f ++ take (m - 10) (frame_body f)) as ->.
  { unfold frame_bytes. rewrite take_app_ge by lia. f_equal.
    rewrite take_app_ge by (rewrite length_be32; lia). f_equal.
    rewrite take_app_ge by (rewrite length_be32; lia). f_equal.
    f_equal. rewrite length_be32. lia. }
  rewrite drop_app_length' by done.
  rewrite take_app_length' by (by rewrite length_be32).
  replace (drop 10 (frame_id f ++ be32 (Z.of_nat (length (frame_body f)))
                    ++ frame_flags f ++ take (m - 10) (frame_body f)))
    with (take (m - 10) (frame_body f)); cycle 1.
  { rewrite !app_assoc. rewrite drop_app_length'; [done|].
    rewrite !length_app, length_be32. lia. }
  unfold INT_MAX in Hbody.
  rewrite frame_size_be32 by lia.
  right. unfold size_t_of_int. rewrite Z.mod_small by lia.
  rewrite length_take. lia.
Qed.

(** X11: a file that ends in the middle of a frame still reads: the frames
    before the cut are taken, the cut frame is dropped, [read_id3_tags]
    returns the record and prints nothing. *)
Theorem truncated_frame_tolerated (path : string) (w : World)
    (hdr : list ascii) (fs : list Frame) (f : Frame) (m : nat) :
  check_id3_tag_presence path = true -> deny_open w path RB = false ->
  files w !! path = Some (hdr ++ frames_bytes fs ++ take m (frame_bytes f)) ->
  length hdr = 10%nat -> take 3 hdr = lit "ID3" ->
  frames_fit (10 + tag_size hdr) 10 fs ->
  wf_frame f -> (m < length (frame_bytes f))%nat ->
  fst (read_id3_tags path w) = Some (store_frames fs (initial_tag hdr)) /\
  stderr (snd (read_id3_tags path w)) = stderr w.
Proof.
  intros Hck Hd Hc Hlen Hmagic Hfit Hwf Hm.
  apply (read_id3_tags_frames path w hdr fs (take m (frame_bytes f))).
  unfold holds_tag. repeat (split; [done|]).
  by apply stops_cut_frame.
Qed.

Lemma truncated_frame_tolerated_witness :
  let w := one_file "song.mp3" cut_frame_file in
  fst (read_id3_tags "song.mp3" w)
  = Some (store_frames [skip_title] (initial_tag skip_header)) /\
  stderr (snd (read_id3_tags "song.mp3" w)) = stderr w.
Proof.
  intros w.
  apply (truncated_frame_tolerated "song.mp3" w skip_header [skip_title]
           twice_artist 12).
  - reflexivity.
  - reflexivity.
  - reflexivity.
  - reflexivity.
  - reflexivity.
  - cbn [frames_fit]. split; [|split; [vm_compute; reflexivity|exact I]].
    split; [reflexivity|]. split; [discriminate|]. split; [reflexivity|].
    vm_compute. reflexivity.
  - split; [reflexivity|]. split; [discriminate|]. split; [reflexivity|].
    vm_compute. reflexivity.
  - vm_compute. lia.
Defined.

(** X12: the size declared in the header bounds where a frame may start.
    When the frames found fill the declared size, nothing that follows
    them reaches the record, not even a further well-formed frame; a frame
    that starts inside the declared size is taken whole, wherever it
    ends. *)
Theorem bytes_beyond_tag_ignored (path : string) (w : World)
    (hdr : list ascii) (fs : list Frame) (tail : list ascii) :
  check_id3_tag_presence path = true -> deny_open w path RB = false ->
  files w !! path = Some (hdr ++ frames_bytes fs ++ tail) ->
  length hdr = 10%nat -> take 3 hdr = lit "ID3" ->
  frames_fit (10 + tag_size hdr) 10 fs ->
  (tag_size hdr <= Z.of_nat (length (frames_bytes fs)))%Z ->
  fst (read_id3_tags path w) = Some (store_frames fs (initial_tag hdr)).
Proof.
  intros Hck Hd Hc Hlen Hmagic Hfit Hsize.
  apply (read_id3_tags_frames path w hdr fs tail).
  unfold holds_tag. repeat (split; [done|]).
  left. lia.
Qed.

Lemma bytes_beyond_tag_ignored_witness :
  fst (read_id3_tags "song.mp3" (one_file "song.mp3" late_frame_file))
  = Some (store_frames [skip_unknown; skip_title] (initial_tag skip_header)).
Proof.
  apply (bytes_beyond_tag_ignored "song.mp3" (one_file "song.mp3" late_frame_file)
           skip_header [skip_unknown; skip_title]
           (frame_bytes (mkFrame (lit "TIT2") [NUL; NUL] (lit "Late")))).
  - reflexivity.
  - reflexivity.
  - reflexivity.
  - reflexivity.
  - reflexivity.
  - cbn [frames_fit].
    split; [|split; [vm_compute; reflexivity|]].
    { split; [reflexivity|]. split; [discriminate|]. split; [reflexivity|].
      vm_compute. reflexivity. }
    split; [|split; [vm_compute; reflexivity|exact I]].
    split; [reflexivity|]. split; [discriminate|]. split; [reflexivity|].
    vm_compute. reflexivity.
  - vm_compute. discriminate.
Defined.

(** ** Further properties of the writer *)

Lemma rewritten_files (path : string) (R : list ascii)
    (F : gmap string (list ascii)) :
  path <> temp_name ->
  <[path := R]> (delete temp_name (delete path (<[temp_name := R]> F)))
  = <[path := R]> (delete temp_name F).
Proof.
  intros Hne. apply map_eq. intros i.
  destruct (decide (i = path)) as [->|Hi].
  { by rewrite !lookup_insert_eq. }
  rewrite !lookup_insert_ne by done.
  destruct (decide (i = temp_name)) as [->|Hi'].
  { by rewrite !lookup_delete_eq. }
  by rewrite !lookup_delete_ne, lookup_insert_ne by done.
Qed.

(** The run of [write_id3_tags] when the header read falls short. *)
Lemma write_id3_tags_short (path : string) (data : TagData) (w : World)
    (orig : list ascii) :
  check_id3_tag_presence path = true -> files w !! path = Some orig ->
  deny_open w path RB = false -> deny_open w temp_name WBplus = false ->
  path = temp_name \/ (length orig < 10)%nat ->
  write_id3_tags path data w
  = ((-1)%Z,
     add_err msg_header
       (upd (<[temp_name := []]> (files w))
            [Fopen path RB; Fopen temp_name WBplus; Fread path 10;
             Fclose path; Fclose temp_name] w)).
Proof.
  intros Hck Hc Hd Hdt Hshort. unfold write_id3_tags.
  rewrite Hck. cbn [negb].
  erewrite bind_run by (rewrite fopen_rb, Hd, Hc; reflexivity).
  cbv beta iota.
  erewrite bind_run by (apply fopen_wb; exact Hdt).
  cbv beta iota. rewrite upd_add_io. cbn [app files add_io].
  assert (exists c, <[temp_name := []]> (files w) !! path = Some c /\
                    (length c < 10)%nat) as (c & Hc' & Hlen).
  { destruct (decide (path = temp_name)) as [->|Hne].
    - exists []. rewrite lookup_insert_eq. split; [done|simpl; lia].
    - exists orig. rewrite lookup_insert_ne by done.
      destruct Hshort; [done|]. by split. }
  erewrite bind_run by (apply fread_run; [exact Hc'|lia]).
  cbv beta iota. change (Z.to_nat 10) with 10%nat. rewrite drop_0.
  rewrite length_take.
  destruct (Nat.eqb_spec (10 `min` length c) 10) as [?|_]; [lia|].
  cbn [negb]. unfold bind, fclose, display_error, ret. cbn [f_path].
  by rewrite !add_io_upd.
Qed.

Lemma write_id3_tags_no_open (path : string) (data : TagData) (w : World) :
  check_id3_tag_presence path = true ->
  deny_open w path RB = true \/ files w !! path = None ->
  write_id3_tags path data w
  = ((-1)%Z, add_err msg_open_orig (add_io [Fopen path RB] w)).
Proof.
  intros Hck H. unfold write_id3_tags. rewrite Hck. cbn [negb].
  unfold bind at 1. rewrite fopen_rb.
  destruct (deny_open w path RB); [done|].
  destruct H as [?|Hn]; [done|by rewrite Hn].
Qed.

Lemma write_id3_tags_no_temp (path : string) (data : TagData) (w : World) :
  check_id3_tag_presence path = true ->
  deny_open w path RB = false -> is_Some (files w !! path) ->
  deny_open w temp_name WBplus = true ->
  write_id3_tags path data w
  = ((-1)%Z,
     add_err msg_open_temp
       (add_io [Fopen path RB; Fopen temp_name WBplus; Fclose path] w)).
Proof.
  intros Hck Hd (orig & Hc) Hdt. unfold write_id3_tags. rewrite Hck. cbn [negb].
  erewrite bind_run by (rewrite fopen_rb, Hd, Hc; reflexivity).
  cbv beta iota.
  unfold bind at 1. unfold fopen. cbn [add_io deny_open]. rewrite Hdt.
  unfold bind, fclose, display_error, ret. cbn [f_path].
  by rewrite !add_io_add_io.
Qed.

(** X13: after a successful [write_id3_tags] the file system is the one
    before with the rewritten bytes under the file's name and no file named
    "temp.mp3": a file of that name that was there before is lost, every
    other file is as it was.  Nothing is printed on standard error. *)
Theorem write_success_files (path : string) (data : TagData) (w : World)
    (orig : list ascii) :
  files w !! path = Some orig ->
  fst (write_id3_tags path data w) = 0%Z ->
  let w' := snd (write_id3_tags path data w) in
  files w' = <[path := rewritten orig data]> (delete temp_name (files w)) /\
  files w' !! temp_name = None /\
  stderr w' = stderr w.
Proof.
  intros Hc Hok.
  apply write_id3_tags_succeeds_iff in Hok
    as (Hck & Hd & _ & Hdt & Hh & Hrm & Hrn).
  assert (path <> temp_name) as Hne.
  { intros ->. by rewrite header_read_temp in Hh. }
  rewrite (header_read_other _ _ _ Hne Hc), length_take in Hh.
  destruct (write_id3_tags_outcome path data w orig Hck Hc Hd Hdt Hne)
    as (cs & Hrun); [lia|].
  rewrite Hrun, Hrm, Hrn. cbn [snd upd set_files add_io files stderr].
  rewrite rewritten_files by done.
  split; [done|]. split; [|done].
  by rewrite lookup_insert_ne, lookup_delete_eq.
Qed.

Lemma write_success_files_witness :
  let w' := snd (write_id3_tags "song.mp3" dummy_tags with_temp_file) in
  files w' = <["song.mp3" := rewritten scenario_file dummy_tags]>
               (delete temp_name (files with_temp_file)) /\
  files w' !! temp_name = None /\
  stderr w' = stderr with_temp_file.
Proof.
  apply (write_success_files "song.mp3" dummy_tags with_temp_file scenario_file).
  - reflexivity.
  - vm_compute. reflexivity.
Defined.

(** X14: when the system refuses to remove the original, [write_id3_tags]
    returns -1 and prints "Error: Failed to remove original file."; the
    original is untouched and the rewritten bytes are left behind under
    "temp.mp3". *)
Theorem write_remove_refused (path : string) (data : TagData) (w : World)
    (orig : list ascii) :
  check_id3_tag_presence path = true -> files w !! path = Some orig ->
  deny_open w path RB = false -> deny_open w temp_name WBplus = false ->
  path <> temp_name -> (10 <= length orig)%nat ->
  deny_remove w path = true ->
  let r := write_id3_tags path data w in
  fst r = (-1)%Z /\
  files (snd r) = <[temp_name := rewritten orig data]> (files w) /\
  files (snd r) !! path = Some orig /\
  stderr (snd r) = stderr w ++ [msg_remove].
Proof.
  intros Hck Hc Hd Hdt Hne Hlen Hrm.
  destruct (write_id3_tags_outcome path data w orig Hck Hc Hd Hdt Hne Hlen)
    as (cs & Hrun).
  cbv zeta. rewrite Hrun, Hrm. cbn [fst snd upd set_files add_io add_err files stderr].
  by rewrite lookup_insert_ne.
Qed.

Lemma write_remove_refused_witness :
  let w := refusing true false "song.mp3" scenario_file in
  let r := write_id3_tags "song.mp3" dummy_tags w in
  fst r = (-1)%Z /\
  files (snd r) = <[temp_name := rewritten scenario_file dummy_tags]> (files w) /\
  files (snd r) !! "song.mp3" = Some scenario_file /\
  stderr (snd r) = stderr w ++ [msg_remove].
Proof.
  intros w.
  apply (write_remove_refused "song.mp3" dummy_tags w scenario_file).
  - reflexivity.
  - reflexivity.
  - reflexivity.
  - reflexivity.
  - discriminate.
  - vm_compute. lia.
  - reflexivity.
Defined.

(** X15: when the original has been removed and the system refuses the
    [rename], [write_id3_tags] returns -1 and prints "Error: Failed to
    rename temporary file."; no file of the original name is left, and the
    rewritten bytes are under "temp.mp3" only. *)
Theorem write_rename_refused (path : string) (data : TagData) (w : World)
    (orig : list ascii) :
  check_id3_tag_presence path = true -> files w !! path = Some orig ->
  deny_open w path RB = false -> deny_open w temp_name WBplus = false ->
  path <> temp_name -> (10 <= length orig)%nat ->
  deny_remove w path = false -> deny_rename w temp_name path = true ->
  let r := write_id3_tags path data w in
  fst r = (-1)%Z /\
  files (snd r) !! path = None /\
  files (snd r) !! temp_name = Some (rewritten orig data) /\
  stderr (snd r) = stderr w ++ [msg_rename].
Proof.
  intros Hck Hc Hd Hdt Hne Hlen Hrm Hrn.
  destruct (write_id3_tags_outcome path data w orig Hck Hc Hd Hdt Hne Hlen)
    as (cs & Hrun).
  cbv zeta. rewrite Hrun, Hrm, Hrn.
  cbn [fst snd upd set_files add_io add_err files stderr].
  by rewrite lookup_delete_eq, lookup_delete_ne, lookup_insert_eq.
Qed.

Lemma write_rename_refused_witness :
  let w := refusing false true "song.mp3" scenario_file in
  let r := write_id3_tags "song.mp3" dummy_tags w in
  fst r = (-1)%Z /\
  files (snd r) !! "song.mp3" = None /\
  files (snd r) !! temp_name = Some (rewritten scenario_file dummy_tags) /\
  stderr (snd r) = stderr w ++ [msg_rename].
Proof.
  intros w.
  apply (write_rename_refused "song.mp3" dummy_tags w scenario_file).
  - reflexivity.
  - reflexivity.
  - reflexivity.
  - reflexivity.
  - discriminate.
  - vm_compute. lia.
  - reflexivity.
  - reflexivity.
Defined.

(** X16: on a file shorter than ten bytes [write_id3_tags] returns -1 and
    prints "Error: Failed to read ID3 header."; the original is untouched,
    but "temp.mp3" has been created, or emptied if it existed, and stays
    behind, empty. *)
Theorem write_short_file (path : string) (data : TagData) (w : World)
    (orig : list ascii) :
  check_id3_tag_presence path = true -> files w !! path = Some orig ->
  deny_open w path RB = false -> deny_open w temp_name WBplus = false ->
  path <> temp_name -> (length orig < 10)%nat ->
  let r := write_id3_tags path data w in
  fst r = (-1)%Z /\
  files (snd r) = <[temp_name := []]> (files w) /\
  stderr (snd r) = stderr w ++ [msg_header] /\
  io (snd r) = io w ++ [Fopen path RB; Fopen temp_name WBplus; Fread path 10;
                        Fclose path; Fclose temp_name].
Proof.
  intros Hck Hc Hd Hdt Hne Hlen. cbv zeta.
  by rewrite (write_id3_tags_short path data w orig) by auto.
Qed.

Lemma write_short_file_witness :
  let w := one_file "song.mp3" (lit "ID3") in
  let r := write_id3_tags "song.mp3" dummy_tags w in
  fst r = (-1)%Z /\
  files (snd r) = <[temp_name := []]> (files w) /\
  stderr (snd r) = stderr w ++ [msg_header] /\
  io (snd r) = io w ++ [Fopen "song.mp3" RB; Fopen temp_name WBplus;
                        Fread "song.mp3" 10; Fclose "song.mp3";
                        Fclose temp_name].
Proof.
  intros w.
  apply (write_short_file "song.mp3" dummy_tags w (lit "ID3")).
  - reflexivity.
  - reflexivity.
  - reflexivity.
  - reflexivity.
  - discriminate.
  - vm_compute. lia.
Defined.

(** X17: asked to rewrite the file named "temp.mp3", [write_id3_tags]
    opens it, empties it by creating its temporary file under the same
    name, finds no header, returns -1 and prints "Error: Failed to read ID3
    header.": whatever the file held is lost. *)
Theorem write_on_temp_name (data : TagData) (w : World) (orig : list ascii) :
  files w !! temp_name = Some orig ->
  deny_open w temp_name RB = false -> deny_open w temp_name WBplus = false ->
  let r := write_id3_tags temp_name data w in
  fst r = (-1)%Z /\
  files (snd r) !! temp_name = Some [] /\
  stderr (snd r) = stderr w ++ [msg_header].
Proof.
  intros Hc Hd Hdt. cbv zeta.
  rewrite (write_id3_tags_short temp_name data w orig) by auto.
  cbn [fst snd upd set_files add_io add_err files stderr].
  by rewrite lookup_insert_eq.
Qed.

Lemma write_on_temp_name_witness :
  let w := one_file "temp.mp3" scenario_file in
  let r := write_id3_tags temp_name dummy_tags w in
  fst r = (-1)%Z /\
  files (snd r) !! temp_name = Some [] /\
  stderr (snd r) = stderr w ++ [msg_header].
Proof.
  intros w. apply (write_on_temp_name dummy_tags w scenario_file); reflexivity.
Defined.

(** X18: when [write_id3_tags] cannot open the original, or cannot create
    "temp.mp3", it returns -1, prints the line that names the file it could
    not open, and changes no file; in the second case the original, already
    open, is closed again. *)
Theorem write_cannot_open (path : string) (data : TagData) (w : World) :
  check_id3_tag_presence path = true ->
  let r := write_id3_tags path data w in
  (deny_open w path RB = true \/ files w !! path = None ->
   fst r = (-1)%Z /\ files (snd r) = files w /\
   stderr (snd r) = stderr w ++ [msg_open_orig] /\
   io (snd r) = io w ++ [Fopen path RB]) /\
  (deny_open w path RB = false -> is_Some (files w !! path) ->
   deny_open w temp_name WBplus = true ->
   fst r = (-1)%Z /\ files (snd r) = files w /\
   stderr (snd r) = stderr w ++ [msg_open_temp] /\
   io (snd r) = io w ++ [Fopen path RB; Fopen temp_name WBplus; Fclose path]).
Proof.
  intros Hck. cbv zeta. split.
  - intros H. by rewrite write_id3_tags_no_open.
  - intros Hd Hc Hdt. by rewrite write_id3_tags_no_temp.
Qed.

Lemma write_cannot_open_witness :
  let w := read_only_world "song.mp3" scenario_file in
  let r := write_id3_tags "song.mp3" dummy_tags w in
  fst r = (-1)%Z /\ files (snd r) = files w /\
  stderr (snd r) = stderr w ++ [msg_open_temp] /\
  io (snd r) = io w ++ [Fopen "song.mp3" RB; Fopen temp_name WBplus;
                        Fclose "song.mp3"].
Proof.
  intros w.
  apply (proj2 (write_cannot_open "song.mp3" dummy_tags w eq_refl)).
  - reflexivity.
  - by eexists.
  - reflexivity.
Defined.

(** The lines [write_id3_tags] can print. *)
Lemma write_id3_tags_reports (path : string) (data : TagData) (w : World) :
  let r := write_id3_tags path data w in
  (fst r = 0%Z /\ stderr (snd r) = stderr w) \/
  (fst r = (-1)%Z /\
   exists line, stderr (snd r) = stderr w ++ [line] /\
     line ∈ [msg_not_mp3; msg_open_orig; msg_open_temp; msg_header;
             msg_remove; msg_rename]).
Proof.
  cbv zeta.
  assert (forall line (l : list string), line ∈ l ->
            exists line', stderr w ++ [line] = stderr w ++ [line'] /\ line' ∈ l)
    as Hin by (intros line l Hl; by exists line).
  destruct (check_id3_tag_presence path) eqn:Hck; cycle 1.
  { right. unfold write_id3_tags. rewrite Hck. split; [done|].
    apply Hin. rewrite !elem_of_cons. auto 10. }
  destruct (deny_open w path RB) eqn:Hd.
  { right. rewrite write_id3_tags_no_open by auto. split; [done|].
    apply Hin. rewrite !elem_of_cons. auto 10. }
  destruct (files w !! path) as [orig|] eqn:Hc; cycle 1.
  { right. rewrite write_id3_tags_no_open by auto. split; [done|].
    apply Hin. rewrite !elem_of_cons. auto 10. }
  destruct (deny_open w temp_name WBplus) eqn:Hdt.
  { right. rewrite write_id3_tags_no_temp by eauto. split; [done|].
    apply Hin. rewrite !elem_of_cons. auto 10. }
  destruct (decide (path = temp_name)) as [Heq|Hne].
  { right. rewrite (write_id3_tags_short path data w orig) by auto.
    split; [done|]. apply Hin. rewrite !elem_of_cons. auto 10. }
  destruct (Nat.le_gt_cases 10 (length orig)) as [Hlen|Hlen]; cycle 1.
  { right. rewrite (write_id3_tags_short path data w orig) by auto.
    split; [done|]. apply Hin. rewrite !elem_of_cons. auto 10. }
  destruct (write_id3_tags_outcome path data w orig Hck Hc Hd Hdt Hne Hlen)
    as (cs & Hrun).
  rewrite Hrun.
  destruct (deny_remove w path);
    [right; split; [done|apply Hin; rewrite !elem_of_cons; auto 10]|].
  destruct (deny_rename w temp_name path);
    [right; split; [done|apply Hin; rewrite !elem_of_cons; auto 10]|].
  by left.
Qed.

(** X19: [write_id3_tags] returns 0 or -1.  It returns 0 exactly when it
    prints nothing on standard error; when it returns -1 it prints exactly
    one line, one of its six error messages. *)
Theorem write_reports_failure (path : string) (data : TagData) (w : World) :
  let r := write_id3_tags path data w in
  (fst r = 0%Z \/ fst r = (-1)%Z) /\
  (fst r = 0%Z <-> stderr (snd r) = stderr w) /\
  (fst r = (-1)%Z <->
   exists line, stderr (snd r) = stderr w ++ [line] /\
     line ∈ [msg_not_mp3; msg_open_orig; msg_open_temp; msg_header;
             msg_remove; msg_rename]).
Proof.
  cbv zeta.
  assert (forall line, stderr w ++ [line] <> stderr w) as Hneq.
  { intros line Heq. apply (f_equal length) in Heq.
    rewrite length_app in Heq. simpl in Heq. lia. }
  destruct (write_id3_tags_reports path data w)
    as [(H0 & Hs)|(H1 & line & Hs & Hline)].
  - rewrite H0, Hs. split; [by left|]. split; [done|].
    split; [done|]. intros (line & Heq & _). symmetry in Heq.
    by apply Hneq in Heq.
  - rewrite H1, Hs. split; [by right|]. split.
    + split; [done|]. intros Heq. by apply Hneq in Heq.
    + split; [|done]. intros _. by exists line.
Qed.

(** *** Reading what [write_id3_tags] emitted *)

Lemma field_id_length (k : Field) : length (field_id k) = 4%nat.
Proof. by destruct k. Qed.

Lemma field_id_inj (k k' : Field) : field_id k = field_id k' -> k = k'.
Proof. by destruct k, k'. Qed.

Lemma emitted_field_frame (k : Field) (d : TagData) :
  emitted (field_id k) (get_field k d) = frames_bytes (field_frame k d).
Proof.
  unfold field_frame. destruct (get_field k d) as [v|]; [|done].
  unfold frames_bytes. cbn [map concat emitted]. by rewrite app_nil_r.
Qed.

Lemma emitted_frames_field_frames (d : TagData) :
  emitted_frames d = frames_bytes (field_frames d).
Proof.
  unfold field_frames. rewrite !frames_bytes_app, <- !emitted_field_frame.
  reflexivity.
Qed.

Lemma store_field_frame_other (k k' : Field) (data d0 : TagData) :
  k <> k' ->
  get_field k (store_frames (field_frame k' data) d0) = get_field k d0.
Proof.
  intros Hne. unfold field_frame. destruct (get_field k' data) as [v|]; [|done].
  unfold store_frames. cbn [fold_left frame_id frame_body].
  rewrite get_field_store_frame by apply field_id_length.
  rewrite bool_decide_eq_false_2; [done|].
  intros Heq. by apply field_id_inj in Heq.
Qed.

Lemma store_field_frame_same (k : Field) (data d0 : TagData) :
  wf_tag data ->
  get_field k (store_frames (field_frame k data) d0)
  = match get_field k data with Some v => Some v | None => get_field k d0 end.
Proof.
  intros Hwf. unfold field_frame.
  destruct (get_field k data) as [v|] eqn:Hv; [|done].
  unfold store_frames. cbn [fold_left frame_id frame_body].
  rewrite get_field_store_frame by apply field_id_length.
  rewrite bool_decide_eq_true_2 by done.
  f_equal. apply strdup_c_string. by destruct (Hwf k v Hv).
Qed.

Lemma store_field_frames (k : Field) (data d0 : TagData) :
  wf_tag data ->
  get_field k (store_frames (field_frames data) d0)
  = match get_field k data with Some v => Some v | None => get_field k d0 end.
Proof.
  intros Hwf. unfold field_frames. rewrite !store_frames_app.
  destruct k;
    repeat rewrite store_field_frame_other by discriminate;
    rewrite store_field_frame_same by done;
    repeat rewrite store_field_frame_other by discriminate;
    reflexivity.
Qed.

(** A file made of a tag header, the frames emitted for [data] and a rest
    at which the loop stops reads as [data]. *)
Lemma read_emitted (path : string) (w : World) (hdr : list ascii)
    (data : TagData) (tail : list ascii) :
  check_id3_tag_presence path = true -> deny_open w path RB = false ->
  files w !! path = Some (hdr ++ emitted_frames data ++ tail) ->
  length hdr = 10%nat -> take 3 hdr = lit "ID3" ->
  wf_tag data ->
  frames_fit (10 + tag_size hdr) 10 (field_frames data) ->
  stops (10 + tag_size hdr) (10 + Z.of_nat (length (emitted_frames data))) tail ->
  exists d,
    fst (read_id3_tags path w) = Some d /\
    forall k, get_field k d = get_field k data.
Proof.
  intros Hck Hd Hc Hlen Hmagic Hwf Hfit Hstop.
  rewrite emitted_frames_field_frames in Hc, Hstop.
  destruct (read_id3_tags_frames path w hdr (field_frames data) tail)
    as [Hr _]; [done|].
  eexists. split; [exact Hr|]. intros k.
  rewrite store_field_frames by done.
  destruct (get_field k data); [done|]. by destruct k.
Qed.



(** ** Properties of [edit_tag] *)

Lemma field_names_spec (tag : string) :
  tag ∈ field_names <-> exists k, tag = field_name k.
Proof.
  unfold field_names. rewrite !elem_of_cons, elem_of_nil. split.
  - intros [->|[->|[->|[->|[->|[->|[]]]]]]];
      [by exists Title|by exists Artist|by exists Album|by exists Year
      |by exists Comment|by exists Genre].
  - intros ([] & ->); cbn; tauto.
Qed.

(** With a recognized name, [edit_tag] is [read_id3_tags] followed by
    [write_id3_tags] on the record read, the named field replaced. *)
Lemma edit_tag_known (path value : string) (k : Field) (w : World)
    (d : TagData) :
  fst (read_id3_tags path w) = Some d ->
  edit_tag path (field_name k) value w
  = write_id3_tags path (set_field k (lit value) d) (snd (read_id3_tags path w)).
Proof.
  intros Hr. unfold edit_tag, bind.
  destruct (read_id3_tags path w) as [o w1]. cbn [fst snd] in *. subst o.
  by destruct k.
Qed.

Lemma edit_tag_read_failed (path tag value : string) (w : World) :
  fst (read_id3_tags path w) = None ->
  edit_tag path tag value w
  = ((-1)%Z, add_err msg_read_failed (snd (read_id3_tags path w))).
Proof.
  intros Hr. unfold edit_tag, bind.
  destruct (read_id3_tags path w) as [o w1]. cbn [fst snd] in *. by subst o.
Qed.

Lemma edit_tag_unknown (path tag value : string) (w : World) (d : TagData) :
  fst (read_id3_tags path w) = Some d -> tag ∉ field_names ->
  edit_tag path tag value w
  = ((-1)%Z, add_err msg_unknown_tag (snd (read_id3_tags path w))).
Proof.
  intros Hr Htag. unfold edit_tag, bind.
  destruct (read_id3_tags path w) as [o w1]. cbn [fst snd] in *. subst o.
  destruct (not_field_name tag Htag) as (-> & -> & -> & -> & -> & ->).
  reflexivity.
Qed.

(** The record [edit_tag] writes holds C strings. *)
Lemma set_field_wf (path value : string) (k : Field) (w : World)
    (c : list ascii) (d : TagData) :
  files w !! path = Some c -> (Z.of_nat (length c) < 2 ^ 63)%Z ->
  fst (read_id3_tags path w) = Some d ->
  c_string (lit value) ->
  wf_tag (set_field k (lit value) d).
Proof.
  intros Hc Hsize Hr Hval k' v Hv.
  assert (v = lit value \/ get_field k' d = Some v) as [->|Hold].
  { destruct k, k'; cbn in Hv; first [by right | left; congruence]. }
  - done.
  - by apply (read_id3_tags_wf_tag path w c d Hc Hsize Hr k' v).
Qed.

Lemma get_set_field_same (k : Field) (v : list ascii) (d : TagData) :
  get_field k (set_field k v d) = Some v.
Proof. by destruct k. Qed.

Lemma get_set_field_other (k k' : Field) (v : list ascii) (d : TagData) :
  k' <> k -> get_field k' (set_field k v d) = get_field k' d.
Proof. by destruct k, k'. Qed.


(** X22: when [read_id3_tags] fails on the file, [edit_tag] returns -1
    whatever the field name, recognized or not; it changes no file, and
    prints two lines: the line of the failed read, then "Error: Failed to
    read tags for editing.". *)
Theorem edit_read_failure (path tag value : string) (w : World) :
  fst (read_id3_tags path w) = None ->
  let r := edit_tag path tag value w in
  fst r = (-1)%Z /\ files (snd r) = files w /\
  exists line, stderr (snd r) = stderr w ++ [line; msg_read_failed].
Proof.
  intros Hr. cbv zeta. rewrite edit_tag_read_failed by done.
  cbn [fst snd add_err files stderr]. split; [done|]. split.
  - by destruct (read_id3_tags_reads_only path w) as (Hf & _).
  - destruct (read_id3_tags_one_line path w Hr) as (line & ->).
    exists line. by rewrite <- app_assoc.
Qed.

Lemma edit_read_failure_witness :
  let w := one_file "song.mp3" untagged_file in
  let r := edit_tag "song.mp3" "title" "New" w in
  fst r = (-1)%Z /\ files (snd r) = files w /\
  exists line, stderr (snd r) = stderr w ++ [line; msg_read_failed].
Proof.
  intros w. apply (edit_read_failure "song.mp3" "title" "New" w).
  vm_compute. reflexivity.
Defined.




Lemma round_trip_file_reads :
  fst (read_id3_tags "song.mp3" (one_file "song.mp3" round_trip_file))
  = Some (mkTagData (Some (lit "ID3v2.3.0")) None None None None None None).
Proof. vm_compute. reflexivity. Qed.



(** ** The printing functions and [main] *)

Lemma pbind_run {A B} (m : Prog A) (k : A -> Prog B) (p p' : Process) (a : A) :
  m p = (a, p') -> pbind m k p = k a p'.
Proof. intros H. unfold pbind. by rewrite H. Qed.

Lemma display_help_run (p : Process) :
  display_help p = (tt, mkProcess (world p) (stdout p ++ help_text)).
Proof.
  unfold display_help, pbind, printf. cbn [world stdout].
  by rewrite <- !app_assoc.
Qed.

Lemma display_metadata_run (d : TagData) (p : Process) :
  display_metadata (Some d) p
  = (tt, mkProcess (world p) (stdout p ++ metadata_lines d)).
Proof.
  unfold display_metadata, pbind, printf. cbn [world stdout].
  by rewrite <- !app_assoc.
Qed.

Lemma view_tags_run (path : string) (p : Process) :
  view_tags path p
  = (tt, mkProcess (snd (read_id3_tags path (world p)))
           (stdout p ++ match fst (read_id3_tags path (world p)) with
                        | Some d => metadata_lines d
                        | None => []
                        end)).
Proof.
  unfold view_tags, pbind, lift.
  destruct (read_id3_tags path (world p)) as [[d|] w1]; cbn [fst snd].
  - by rewrite display_metadata_run.
  - unfold pret. by rewrite app_nil_r.
Qed.



Lemma operates_dec (argv : list string) :
  operates argv \/
  (String.eqb (arg argv 1) "-v" && (length argv =? 3)%nat = false /\
   String.eqb (arg argv 1) "-w" && (length argv =? 3)%nat = false /\
   String.eqb (arg argv 1) "-e" && (length argv =? 5)%nat = false).
Proof.
  unfold operates.
  destruct (String.eqb_spec (arg argv 1) "-v") as [->|?];
    destruct (Nat.eqb_spec (length argv) 3); cbn [andb]; try tauto;
    destruct (String.eqb_spec (arg argv 1) "-w") as [->|?];
    cbn [andb]; try tauto;
    destruct (String.eqb_spec (arg argv 1) "-e") as [->|?];
    destruct (Nat.eqb_spec (length argv) 5); cbn [andb]; tauto.
Qed.

(** On a command line on which [main] does not operate, it prints the
    help text and does nothing else. *)
Lemma main_help (argv : list string) (p : Process) :
  ~ operates argv ->
  snd (main argv p) = mkProcess (world p) (stdout p ++ help_text).
Proof.
  intros Hno. unfold main.
  destruct (length argv <? 2)%nat.
  { unfold pbind. by rewrite display_help_run. }
  destruct (operates_dec argv) as [?|(-> & -> & ->)]; [done|].
  destruct (String.eqb (arg argv 1) "-h");
    unfold pbind; by rewrite display_help_run.
Qed.

(** X26: on a command line that is none of "-v file", "-w file" and
    "-e tag file value" (too few or too many arguments, "-h", an unknown
    option), [main] prints the six lines of help on standard output and
    does nothing else: no file call, nothing on standard error.  The exit
    status is 1 when no option was given at all and 0 otherwise. *)
Theorem main_usage (argv : list string) (p : Process) :
  ~ operates argv ->
  main argv p
  = (if (length argv <? 2)%nat then 1%Z else 0%Z,
     mkProcess (world p) (stdout p ++ help_text)).
Proof.
  intros Hno. rewrite (surjective_pairing (main argv p)).
  rewrite (main_help argv p Hno). f_equal.
  unfold main. destruct (length argv <? 2)%nat.
  - unfold pbind. by destruct (display_help p).
  - unfold pbind at 1.
    match goal with |- context [let (_, _) := ?m p in _] => by destruct (m p) end.
Qed.

Lemma main_usage_witness :
  main ["mp3tagreader"; "-v"] (start (one_file "song.mp3" scenario_file))
  = (0%Z, mkProcess (one_file "song.mp3" scenario_file) ([] ++ help_text)).
Proof.
  apply (main_usage ["mp3tagreader"; "-v"]
           (start (one_file "song.mp3" scenario_file))).
  intros [[_ H]|[[H _]|[H _]]]; discriminate.
Defined.

(** [main] with "-v file": the lines of [view_tags]. *)
Lemma main_view (prog path : string) (p : Process) :
  main [prog; "-v"; path] p = (0%Z, snd (view_tags path p)).
Proof.
  unfold main. cbn [length Nat.ltb Nat.leb arg nth String.eqb Ascii.eqb
                    Bool.eqb andb Nat.eqb].
  unfold pbind. by destruct (view_tags path p) as [[] p'].
Qed.



(** [edit_tag] returns 0 or -1, prints nothing when it returns 0 and at
    least one line when it returns -1. *)
Lemma edit_tag_reports (path tag value : string) (w : World) :
  let r := edit_tag path tag value w in
  (fst r = 0%Z /\ stderr (snd r) = stderr w) \/
  (fst r = (-1)%Z /\
   exists line lines, stderr (snd r) = stderr w ++ line :: lines).
Proof.
  cbv zeta.
  destruct (fst (read_id3_tags path w)) as [d|] eqn:Hr; cycle 1.
  { right. rewrite edit_tag_read_failed by done. split; [done|].
    cbn [snd add_err stderr].
    destruct (read_id3_tags_one_line path w Hr) as (line & ->).
    exists line, [msg_read_failed]. by rewrite <- app_assoc. }
  pose proof (read_id3_tags_quiet path w d Hr) as Hq.
  destruct (decide (tag ∈ field_names)) as [Htag|Htag]; cycle 1.
  { right. rewrite (edit_tag_unknown path tag value w d) by done.
    split; [done|]. cbn [snd add_err stderr]. rewrite Hq. by eexists _, []. }
  apply field_names_spec in Htag as (k & ->).
  rewrite (edit_tag_known path value k w d Hr).
  destruct (write_id3_tags_reports path (set_field k (lit value) d)
              (snd (read_id3_tags path w)))
    as [(H0 & Hs)|(H1 & line & Hs & _)].
  - left. split; [done|]. by rewrite Hs.
  - right. split; [done|]. rewrite Hs, Hq. by eexists _, [].
Qed.

Lemma main_dummy_record :
  set_genre (strdup (lit "dummy genre"))
    (set_comment (strdup (lit "dummy comment"))
       (set_year (strdup (lit "dummy year"))
          (set_album (strdup (lit "dummy album"))
             (set_artist (strdup (lit "dummy artist"))
                (set_title (strdup (lit "dummy title"))
                   (set_version (strdup (lit "ID3v2.3")) create_tag_data))))))
  = dummy_tags.
Proof. reflexivity. Qed.

Lemma main_write_run (prog path : string) (p : Process) :
  main [prog; "-w"; path] p
  = (0%Z,
     let r := write_id3_tags path dummy_tags (world p) in
     if (fst r =? 0)%Z
     then mkProcess (snd r) (stdout p ++ ["Tags written successfully."])
     else mkProcess (add_err msg_write_failed (snd r)) (stdout p)).
Proof.
  unfold main. cbn [length Nat.ltb Nat.leb arg nth String.eqb Ascii.eqb
                    Bool.eqb andb Nat.eqb].
  cbv zeta. rewrite main_dummy_record.
  unfold pbind, lift, printf, display_error, pret.
  destruct (write_id3_tags path dummy_tags (world p)) as [r w1].
  cbn [fst snd]. by destruct (r =? 0)%Z.
Qed.

Lemma main_edit_run (prog tag path value : string) (p : Process) :
  main [prog; "-e"; tag; path; value] p
  = (0%Z,
     let r := edit_tag path tag value (world p) in
     if (fst r =? 0)%Z
     then mkProcess (snd r) (stdout p ++ ["Tag edited successfully."])
     else mkProcess (add_err msg_edit_failed (snd r)) (stdout p)).
Proof.
  unfold main. cbn [length Nat.ltb Nat.leb arg nth String.eqb Ascii.eqb
                    Bool.eqb andb Nat.eqb].
  unfold pbind, lift, printf, display_error, pret.
  destruct (edit_tag path tag value (world p)) as [r w1].
  cbn [fst snd]. by destruct (r =? 0)%Z.
Qed.

(** X28: [main] with "-w file" runs [write_id3_tags] on the file with the
    record of the seven dummy values and exits with status 0 whatever the
    outcome.  When the write returns 0 it prints "Tags written
    successfully." on standard output and nothing on standard error; when
    the write fails it prints nothing on standard output, and on standard
    error the line of the write followed by "Error: Failed to write
    tags.". *)
Theorem main_write (prog path : string) (p : Process) :
  let r := write_id3_tags path dummy_tags (world p) in
  let p' := snd (main [prog; "-w"; path] p) in
  fst (main [prog; "-w"; path] p) = 0%Z /\
  files (world p') = files (snd r) /\
  (fst r = 0%Z ->
   stdout p' = stdout p ++ ["Tags written successfully."] /\
   stderr (world p') = stderr (world p)) /\
  (fst r <> 0%Z ->
   stdout p' = stdout p /\
   exists line, stderr (world p') = stderr (world p) ++ [line; msg_write_failed]).
Proof.
  cbv zeta. rewrite main_write_run. cbn [fst snd]. split; [done|].
  destruct (write_id3_tags_reports path dummy_tags (world p))
    as [(H0 & Hs)|(H1 & line & Hs & _)].
  - rewrite H0. cbn [Z.eqb world stdout]. split; [done|]. split; [done|].
    by intros ?.
  - rewrite H1. cbn [Z.eqb world stdout add_err files stderr].
    split; [done|]. split; [done|]. intros _. split; [done|].
    exists line. by rewrite Hs, <- app_assoc.
Qed.

Lemma main_write_witness :
  let p := start (one_file "song.mp3" scenario_file) in
  let p' := snd (main ["mp3tagreader"; "-w"; "song.mp3"] p) in
  stdout p' = stdout p ++ ["Tags written successfully."] /\
  stderr (world p') = stderr (world p).
Proof.
  intros p.
  apply (proj1 (proj2 (proj2 (main_write "mp3tagreader" "song.mp3" p)))).
  vm_compute. reflexivity.
Defined.


